(** * Skill-exchange backend: the request / permission workflow, the matcher
      and the stream gate of [server.js], as state-passing functions over the
      relational store, with the properties of its specification. *)

From Stdlib Require Import ZArith List String Ascii Bool Lia.
From Stdlib Require Import Sorted Permutation.
Import ListNotations.

Local Open Scope string_scope.
Local Open Scope list_scope.
Local Open Scope Z_scope.

(** ** Rows of the relational schema

    Identifiers are the integers the store hands out ([Int] with
    autoincrement); timestamps are integers as well.  The handlers receive
    the caller as [req.user.id], the identifier the [auth] middleware took
    from a verified token, and a route parameter after [Number(...)] gave an
    integer. *)

Record User := mkUser {
  u_id : Z;
  u_name : string;
  u_email : string;
  u_password : string;
  u_mobile : string;
  u_age : Z;
  u_profession : string
}.

Record Skill := mkSkill {
  s_id : Z;
  s_title : string;
  s_description : option string;
  s_videoPath : string;
  s_ownerId : Z;
  s_createdAt : Z
}.

Record Want := mkWant {
  w_id : Z;
  w_title : string;
  w_description : option string;
  w_ownerId : Z;
  w_createdAt : Z
}.

(** The three values the handlers write to, or compare with, [status]:
    ["pending"], ["accepted"], ["declined"]. *)
Inductive Status := pending | accepted | declined.

Record Request := mkRequest {
  r_id : Z;
  r_fromId : Z;
  r_toId : Z;
  r_skillId : Z;
  r_status : Status;
  r_createdAt : Z
}.

Record Permission := mkPermission {
  p_id : Z;
  p_userId : Z;
  p_videoId : Z
}.

(** The store: one list of rows per table in insertion order, the next value
    of each table's identifier sequence, and the files of [UPLOAD_DIR]
    (name and content).  The handlers below read the user table and never
    write it; a caller is a registered user, so the foreign keys from the
    other tables to it are not checked. *)
Record Db := mkDb {
  users : list User;
  skills : list Skill;
  wants : list Want;
  requests : list Request;
  permissions : list Permission;
  seq_skill : Z;
  seq_want : Z;
  seq_request : Z;
  seq_permission : Z;
  files : list (string * string)
}.

Definition empty_db : Db := mkDb [] [] [] [] [] 1 1 1 1 [].

Definition Status_eqb (a b : Status) : bool :=
  match a, b with
  | pending, pending | accepted, accepted | declined, declined => true
  | _, _ => false
  end.

Definition with_status (s : Status) (r : Request) : Request :=
  mkRequest (r_id r) (r_fromId r) (r_toId r) (r_skillId r) s (r_createdAt r).

Definition with_skills (l : list Skill) (n : Z) (st : Db) : Db :=
  mkDb (users st) l (wants st) (requests st) (permissions st)
       n (seq_want st) (seq_request st) (seq_permission st) (files st).

Definition with_wants (l : list Want) (n : Z) (st : Db) : Db :=
  mkDb (users st) (skills st) l (requests st) (permissions st)
       (seq_skill st) n (seq_request st) (seq_permission st) (files st).

Definition with_requests (l : list Request) (n : Z) (st : Db) : Db :=
  mkDb (users st) (skills st) (wants st) l (permissions st)
       (seq_skill st) (seq_want st) n (seq_permission st) (files st).

Definition with_permissions (l : list Permission) (n : Z) (st : Db) : Db :=
  mkDb (users st) (skills st) (wants st) (requests st) l
       (seq_skill st) (seq_want st) (seq_request st) n (files st).

Definition with_files (l : list (string * string)) (st : Db) : Db :=
  mkDb (users st) (skills st) (wants st) (requests st) (permissions st)
       (seq_skill st) (seq_want st) (seq_request st) (seq_permission st) l.

(** ** The query operations the handlers use *)

Module Prisma.

(** What a query can throw. *)
Inductive Error :=
| MissingArgument (field : string)
| RecordNotFound
| ValueOutOfRange (field : string).

(** Stands for [e.message]; the library's own text is longer, and no
    property below depends on it. *)
Definition message (e : Error) : string :=
  match e with
  | MissingArgument f => String.append "Argument missing: " f
  | RecordNotFound => "Record to update not found."
  | ValueOutOfRange f => String.append "Value out of range: " f
  end.

(** An [Int] column holds a signed 32-bit integer.  A query that is given
    another integer for such a column throws before it reads the table. *)
Definition fits_int (k : Z) : bool :=
  (-2147483648 <=? k) && (k <=? 2147483647).

Definition checked_int (field : string) (k : Z) : Error + Z :=
  if fits_int k then inr k else inl (ValueOutOfRange field).

Section Table.
Context {A : Type}.

(** [findUnique] and [findFirst]: the first row the condition selects. *)
Definition findFirst (where_ : A -> bool) (rows : list A) : option A :=
  find where_ rows.

Definition findUnique (key : A -> Z) (k : Z) (rows : list A) : option A :=
  find (fun a => key a =? k) rows.

Definition findMany (where_ : A -> bool) (rows : list A) : list A :=
  filter where_ rows.

(** [update({where: {id}, data})]: rewrites the row with that key and
    returns it; throws when there is none. *)
Fixpoint update (key : A -> Z) (k : Z) (data : A -> A) (rows : list A)
  : option (list A * A) :=
  match rows with
  | [] => None
  | a :: rest =>
      if key a =? k then Some (data a :: rest, data a)
      else match update key k data rest with
           | Some (rest', a') => Some (a :: rest', a')
           | None => None
           end
  end.

(** [orderBy: { field: "desc" }]: insertion sort, largest key first. *)
Fixpoint insert_desc (key : A -> Z) (a : A) (l : list A) : list A :=
  match l with
  | [] => [a]
  | b :: rest =>
      if key b <=? key a then a :: b :: rest
      else b :: insert_desc key a rest
  end.

Fixpoint orderBy_desc (key : A -> Z) (l : list A) : list A :=
  match l with
  | [] => []
  | a :: rest => insert_desc key a (orderBy_desc key rest)
  end.

(** The order of a list sorted by [orderBy_desc]. *)
Definition newest_first (key : A -> Z) (x y : A) : Prop := key y <= key x.
End Table.

(** ** [contains] with [mode: "insensitive"] on titles

    The store compares with [ILIKE] against the pattern made of [%], the
    value as it is, and [%].  In a pattern [%] stands for any run of
    characters, [_] for any one character, and a backslash makes the
    character after it literal; letter case is ignored by folding both sides
    to lower case.  Characters are bytes here and the letters folded are A
    to Z, which is what the store does on titles of ASCII characters. *)

Definition lower_ascii (c : ascii) : ascii :=
  let n := nat_of_ascii c in
  if ((65 <=? n) && (n <=? 90))%nat then ascii_of_nat (n + 32) else c.

Fixpoint lower (s : string) : string :=
  match s with
  | EmptyString => EmptyString
  | String c rest => String (lower_ascii c) (lower rest)
  end.

(** Matching of a pattern against a text, case as it is. *)
Fixpoint like (pattern : string) : string -> bool :=
  match pattern with
  | EmptyString =>
      fun text => match text with EmptyString => true | _ => false end
  | String p rest =>
      if Ascii.eqb p "%" then
        fix any_run (text : string) : bool :=
          like rest text
          || match text with
             | EmptyString => false
             | String _ text' => any_run text'
             end
      else if Ascii.eqb p "_" then
        fun text =>
          match text with
          | EmptyString => false
          | String _ text' => like rest text'
          end
      else if Ascii.eqb p "\" then
        match rest with
        | EmptyString => fun _ => false
        | String q rest' =>
            fun text =>
              match text with
              | EmptyString => false
              | String c text' => Ascii.eqb q c && like rest' text'
              end
        end
      else
        fun text =>
          match text with
          | EmptyString => false
          | String c text' => Ascii.eqb p c && like rest text'
          end
  end.

(** Plain substring search: what the pattern search comes to for a value
    without [%], [_] and backslash. *)
Fixpoint starts_with (needle hay : string) : bool :=
  match needle, hay with
  | EmptyString, _ => true
  | String _ _, EmptyString => false
  | String a n', String b h' => Ascii.eqb a b && starts_with n' h'
  end.

Fixpoint contains (needle hay : string) : bool :=
  starts_with needle hay
  || match hay with
     | EmptyString => false
     | String _ h' => contains needle h'
     end.

Definition contains_insensitive (needle hay : string) : bool :=
  like (String "%" (String.append (lower needle) "%")) (lower hay).

End Prisma.


(** ** Responses *)

(** How a handler ends: [res.json(body)] or [res.sendFile(...)] with status
    200, [res.status(code).json({ error })], or an exception no [catch] of
    the handler takes. *)
Inductive Response (A : Type) : Type :=
| Sent (body : A)
| Fail (status : Z) (error : string)
| Uncaught (e : Prisma.Error).

Arguments Sent {A} body.
Arguments Fail {A} status error.
Arguments Uncaught {A} e.

(** The error kinds of the specification. *)
Inductive ErrorKind :=
| Unauthorized | Forbidden | NotFound | Conflict | InvalidOperation
| ValidationError | InternalFailure.

(** The server answers a self-request, a duplicate pending request and a
    failed login with status 400, like a missing field; they are told apart
    by their message. *)
Definition kind_of (status : Z) (error : string) : ErrorKind :=
  if status =? 401 then Unauthorized
  else if status =? 403 then Forbidden
  else if status =? 404 then NotFound
  else if status =? 409 then Conflict
  else if status =? 400 then
    if String.eqb error "Request already pending" then Conflict
    else if String.eqb error "Cannot request your own video"
         then InvalidOperation
    else if String.eqb error "Invalid credentials" then Unauthorized
    else ValidationError
  else InternalFailure.

Definition outcome {A : Type} (r : Response A) : option ErrorKind :=
  match r with
  | Sent _ => None
  | Fail status error => Some (kind_of status error)
  | Uncaught _ => Some InternalFailure
  end.

(** ** Joined rows ([include]) and the shapes sent to the client *)

Record OwnerInfo := mkOwnerInfo {
  o_id : Z; o_name : string; o_email : string; o_profession : string
}.

Record PartyInfo := mkPartyInfo {
  pi_id : Z; pi_name : string; pi_email : string
}.

Definition owner_info (st : Db) (uid : Z) : option OwnerInfo :=
  match Prisma.findUnique u_id uid (users st) with
  | Some u => Some (mkOwnerInfo (u_id u) (u_name u) (u_email u) (u_profession u))
  | None => None
  end.

Definition party_info (st : Db) (uid : Z) : option PartyInfo :=
  match Prisma.findUnique u_id uid (users st) with
  | Some u => Some (mkPartyInfo (u_id u) (u_name u) (u_email u))
  | None => None
  end.

(** [{ ...skill, userId: skill.ownerId, user: skill.owner }] *)
Record SkillView := mkSkillView {
  sv_skill : Skill;
  sv_owner : option OwnerInfo;
  sv_userId : Z;
  sv_user : option OwnerInfo
}.

Definition skill_view (st : Db) (s : Skill) : SkillView :=
  let owner := owner_info st (s_ownerId s) in
  mkSkillView s owner (s_ownerId s) owner.

(** [{ ...request, fromUser: request.from, toUser: request.to }] *)
Record RequestView := mkRequestView {
  rv_request : Request;
  rv_from : option PartyInfo;
  rv_to : option PartyInfo;
  rv_skill : option Skill;
  rv_fromUser : option PartyInfo;
  rv_toUser : option PartyInfo
}.

Definition request_view (st : Db) (r : Request) : RequestView :=
  let from := party_info st (r_fromId r) in
  let to := party_info st (r_toId r) in
  mkRequestView r from to (Prisma.findUnique s_id (r_skillId r) (skills st))
                from to.

(** ** Skills and wants *)

(** [upload.single("video")] runs before the handler and writes the uploaded
    file, under the name it chose, into [UPLOAD_DIR]. *)
Definition multer_single (file : option (string * string)) (st : Db) : Db :=
  match file with
  | Some f => with_files (f :: files st) st
  | None => st
  end.

(** Modelled from the spec: the schema file is not among the sources.  The
    data model gives a Skill a title and a creation timestamp and calls only
    the description optional, so [title] is taken as a required column (a
    call without it throws) and [createdAt] as set to the time of the call.
    This is [prisma.skill.create]. *)
Definition skill_create (now : Z) (title description : option string)
  (videoPath : string) (ownerId : Z) (st : Db) : Db * (Prisma.Error + Skill) :=
  match title with
  | None => (st, inl (Prisma.MissingArgument "title"))
  | Some t =>
      let row := mkSkill (seq_skill st) t description videoPath ownerId now in
      (with_skills (skills st ++ [row]) (seq_skill st + 1) st, inr row)
  end.

(** POST /skills *)
Definition createSkill (now user : Z) (title description : option string)
  (file : option (string * string)) (st : Db) : Db * Response Skill :=
  let st := multer_single file st in
  match file with
  | None => (st, Fail 400 "Video required")
  | Some (filename, _) =>
      match skill_create now title description filename user st with
      | (st', inr skill) => (st', Sent skill)
      | (st', inl e) => (st', Fail 400 (Prisma.message e))
      end
  end.

(** GET /skills *)
Definition listSkills (st : Db) : Response (list SkillView) :=
  let skills := Prisma.orderBy_desc s_createdAt (skills st) in
  Sent (map (skill_view st) skills).

(** Modelled from the spec: the schema file is not among the sources; a Want
    has the same columns and lifecycle as a Skill, less the media reference.
    This is [prisma.want.create]. *)
Definition want_create (now : Z) (title description : option string)
  (ownerId : Z) (st : Db) : Db * (Prisma.Error + Want) :=
  match title with
  | None => (st, inl (Prisma.MissingArgument "title"))
  | Some t =>
      let row := mkWant (seq_want st) t description ownerId now in
      (with_wants (wants st ++ [row]) (seq_want st + 1) st, inr row)
  end.

(** POST /wants: no [try] around the query. *)
Definition createWant (now user : Z) (title description : option string)
  (st : Db) : Db * Response Want :=
  match want_create now title description user st with
  | (st', inr want) => (st', Sent want)
  | (st', inl e) => (st', Uncaught e)
  end.

(** GET /wants/me *)
Definition myWants (user : Z) (st : Db) : Response (list Want) :=
  Sent (Prisma.orderBy_desc w_createdAt
          (Prisma.findMany (fun w => w_ownerId w =? user) (wants st))).

(** GET /matches *)
Definition matches (user : Z) (st : Db) : Response (list SkillView) :=
  let myWants := Prisma.findMany (fun w => w_ownerId w =? user) (wants st) in
  if (List.length myWants =? 0)%nat then Sent []
  else
    let orClauses :=
      map (fun w => fun s : Skill =>
             Prisma.contains_insensitive (w_title w) (s_title s)) myWants in
    let skills :=
      Prisma.orderBy_desc s_createdAt
        (Prisma.findMany
           (fun s => negb (s_ownerId s =? user)
                     && existsb (fun clause => clause s) orClauses)
           (skills st)) in
    Sent (map (skill_view st) skills).

(** ** Requests *)

(** Modelled from the spec: the schema file is not among the sources; a
    Request is created in state [pending], which the handler does not pass
    and the column default therefore supplies.  This is
    [prisma.request.create]. *)
Definition request_create (now fromId toId skillId : Z) (st : Db)
  : Db * Request :=
  let row := mkRequest (seq_request st) fromId toId skillId pending now in
  (with_requests (requests st ++ [row]) (seq_request st + 1) st, row).

(** POST /requests/:videoId, on an identifier the [Int] column of the skill
    table can hold; [postRequest] below is the route on any integer. *)
Definition createRequest (now user videoId : Z) (st : Db)
  : Db * Response Request :=
  match Prisma.findUnique s_id videoId (skills st) with
  | None => (st, Fail 404 "Video not found")
  | Some video =>
      if s_ownerId video =? user
      then (st, Fail 400 "Cannot request your own video")
      else
        match Prisma.findFirst
                (fun r => (r_fromId r =? user) && (r_skillId r =? videoId)
                          && Status_eqb (r_status r) pending)
                (requests st) with
        | Some _ => (st, Fail 400 "Request already pending")
        | None =>
            let (st', reqRow) :=
              request_create now user (s_ownerId video) videoId st in
            (st', Sent reqRow)
        end
  end.

(** A value of [req.query]: a string, or what a repeated or bracketed
    parameter parses to. *)
Inductive QueryValue :=
| QString (s : string)
| QArray (items : list string)
| QObject (fields : list (string * string)).

(** [type === "outgoing"] *)
Definition is_outgoing (type : option QueryValue) : bool :=
  match type with
  | Some (QString s) => String.eqb s "outgoing"
  | _ => false
  end.

(** GET /requests *)
Definition listRequests (user : Z) (type : option QueryValue) (st : Db)
  : Response (list RequestView) :=
  let where_ :=
    if is_outgoing type then (fun r => r_fromId r =? user)
    else (fun r => r_toId r =? user) in
  let rows :=
    Prisma.orderBy_desc r_createdAt (Prisma.findMany where_ (requests st)) in
  Sent (map (request_view st) rows).

(** [prisma.permission.upsert] on the compound key [userId_videoId] with
    [update: {}]: a row with the key stays as it is, otherwise one is
    created. *)
Definition has_key (userId videoId : Z) (p : Permission) : bool :=
  (p_userId p =? userId) && (p_videoId p =? videoId).

Definition permission_upsert (userId videoId : Z) (st : Db) : Db :=
  match Prisma.findFirst (has_key userId videoId) (permissions st) with
  | Some _ => st
  | None =>
      with_permissions
        (permissions st ++ [mkPermission (seq_permission st) userId videoId])
        (seq_permission st + 1) st
  end.

(** POST /requests/:id/accept, on an identifier the [Int] column can hold;
    [postAccept] below is the route on any integer. *)
Definition accept (user id : Z) (st : Db) : Db * Response Request :=
  match Prisma.findUnique r_id id (requests st) with
  | None => (st, Fail 404 "Not found")
  | Some r =>
      if negb (r_toId r =? user) then (st, Fail 403 "Not your request")
      else
        match Prisma.update r_id id (with_status accepted) (requests st) with
        | None => (st, Uncaught Prisma.RecordNotFound)
        | Some (rows, updated) =>
            let st1 := with_requests rows (seq_request st) st in
            let st2 := permission_upsert (r_fromId r) (r_skillId r) st1 in
            (st2, Sent updated)
        end
  end.

(** POST /requests/:id/decline, on an identifier the [Int] column can hold;
    [postDecline] below is the route on any integer. *)
Definition decline (user id : Z) (st : Db) : Db * Response Request :=
  match Prisma.findUnique r_id id (requests st) with
  | None => (st, Fail 404 "Not found")
  | Some r =>
      if negb (r_toId r =? user) then (st, Fail 403 "Not your request")
      else
        match Prisma.update r_id id (with_status declined) (requests st) with
        | None => (st, Uncaught Prisma.RecordNotFound)
        | Some (rows, updated) =>
            (with_requests rows (seq_request st) st, Sent updated)
        end
  end.

(** ** Permissions and streaming *)

(** [fs.existsSync] and the content [res.sendFile] reads, for a name inside
    [UPLOAD_DIR]. *)
Fixpoint read_file (name : string) (fs : list (string * string))
  : option string :=
  match fs with
  | [] => None
  | (n, content) :: rest =>
      if String.eqb n name then Some content else read_file name rest
  end.

(** GET /stream/:videoId, on an identifier the [Int] column can hold;
    [getStream] below is the route on any integer. *)
Definition stream (user videoId : Z) (st : Db) : Response string :=
  match Prisma.findUnique s_id videoId (skills st) with
  | None => Fail 404 "Video not found"
  | Some video =>
      let denied :=
        if negb (s_ownerId video =? user) then
          match Prisma.findFirst (has_key user videoId) (permissions st) with
          | Some _ => false
          | None => true
          end
        else false in
      if denied then Fail 403 "No permission"
      else
        match read_file (s_videoPath video) (files st) with
        | None => Fail 404 "File missing"
        | Some bytes => Sent bytes
        end
  end.

(** ** The four routes on any integer in the path

    Each of these handlers first hands [Number(req.params...)] to
    [findUnique], outside any [try]: for an integer the [Int] column cannot
    hold the query throws and the handler sends nothing; for any other one
    the handler goes on as above. *)




Definition getStream (user videoId : Z) (st : Db) : Response string :=
  match Prisma.checked_int "id" videoId with
  | inl e => Uncaught e
  | inr id => stream user id st
  end.

(** Accept, [n] times over, by the same caller on the same request. *)
Fixpoint accept_times (n : nat) (user id : Z) (st : Db)
  : Db * list (Response Request) :=
  match n with
  | O => (st, [])
  | S k =>
      let (st1, resp) := accept user id st in
      let (st2, resps) := accept_times k user id st1 in
      (st2, resp :: resps)
  end.

(** ** Client calls and runs *)

(** The calls that write to the store. *)
Inductive Call :=
| CreateSkill (now user : Z) (title description : option string)
              (file : option (string * string))
| CreateWant (now user : Z) (title description : option string)
| CreateRequest (now user videoId : Z)
| Accept (user id : Z)
| Decline (user id : Z).

Definition perform (c : Call) (st : Db) : Db :=
  match c with
  | CreateSkill now user title description file =>
      fst (createSkill now user title description file st)
  | CreateWant now user title description =>
      fst (createWant now user title description st)
  | CreateRequest now user videoId => fst (createRequest now user videoId st)
  | Accept user id => fst (accept user id st)
  | Decline user id => fst (decline user id st)
  end.

Definition run (calls : list Call) (st : Db) : Db :=
  fold_left (fun st c => perform c st) calls st.

(** ** Vocabulary of the specification *)

Definition skill_exists (st : Db) (sid : Z) : Prop :=
  exists s, In s (skills st) /\ s_id s = sid.

Definition owns (st : Db) (u sid : Z) : Prop :=
  exists s, In s (skills st) /\ s_id s = sid /\ s_ownerId s = u.

Definition has_permission (st : Db) (u sid : Z) : Prop :=
  exists p, In p (permissions st) /\ p_userId p = u /\ p_videoId p = sid.

Definition has_pending (st : Db) (u sid : Z) : Prop :=
  exists r, In r (requests st)
            /\ r_fromId r = u /\ r_skillId r = sid /\ r_status r = pending.


(** The media file of skill [sid] is in [UPLOAD_DIR], with content [bytes]. *)
Definition media_stored (st : Db) (sid : Z) (bytes : string) : Prop :=
  exists s, In s (skills st) /\ s_id s = sid
            /\ read_file (s_videoPath s) (files st) = Some bytes.

Definition media_missing (st : Db) (sid : Z) : Prop :=
  exists s, In s (skills st) /\ s_id s = sid
            /\ read_file (s_videoPath s) (files st) = None.

(** A handler refuses: it answers [status] and [error], an error of kind
    [k]; [rejects] adds that the store is left as it was. *)
Definition refuses {A : Type} (resp : Response A) (status : Z)
  (error : string) (k : ErrorKind) : Prop :=
  resp = Fail status error /\ outcome resp = Some k.

Definition rejects {A : Type} (res : Db * Response A) (st : Db) (status : Z)
  (error : string) (k : ErrorKind) : Prop :=
  fst res = st /\ refuses (snd res) status error k.

(** The Permission rows with the compound key [(u, sid)]. *)
Definition permission_rows (st : Db) (u sid : Z) : list Permission :=
  filter (has_key u sid) (permissions st).

(** Two characters are the same letter: equal, or a capital letter A to Z
    and its small letter. *)
Definition same_letter (a b : ascii) : Prop :=
  a = b
  \/ ((65 <= nat_of_ascii a <= 90)%nat
      /\ nat_of_ascii b = (nat_of_ascii a + 32)%nat)
  \/ ((65 <= nat_of_ascii b <= 90)%nat
      /\ nat_of_ascii a = (nat_of_ascii b + 32)%nat).

Fixpoint same_letters (x y : string) : Prop :=
  match x, y with
  | EmptyString, EmptyString => True
  | String a x', String b y' => same_letter a b /\ same_letters x' y'
  | _, _ => False
  end.

(** [hay] contains [needle] when letter case is ignored: a piece of [hay]
    spells [needle] letter by letter. *)
Definition contains_ignoring_case (needle hay : string) : Prop :=
  exists before piece after,
    hay = String.append before (String.append piece after)
    /\ same_letters needle piece.

(** The characters with a meaning of their own in a pattern. *)
Definition special (c : ascii) : bool :=
  Ascii.eqb c "%" || Ascii.eqb c "_" || Ascii.eqb c "\".

(** A title without such characters. *)
Fixpoint plain (s : string) : bool :=
  match s with
  | EmptyString => true
  | String c rest => negb (special c) && plain rest
  end.


(** ** Consistency of a store

    The constraints of the schema the properties rest on (primary keys drawn
    from a sequence, the unique compound key of Permission) and what the
    handlers maintain about requests: a request targets the owner of an
    existing skill, never its own sender, and a sender has at most one
    pending request per skill. *)
Record Inv (st : Db) : Prop := mkInv {
  inv_skill_ids : NoDup (map s_id (skills st));
  inv_skill_seq : forall s, In s (skills st) -> s_id s < seq_skill st;
  inv_request_ids : NoDup (map r_id (requests st));
  inv_request_seq : forall r, In r (requests st) -> r_id r < seq_request st;
  inv_permission_keys :
    NoDup (map (fun p => (p_userId p, p_videoId p)) (permissions st));
  inv_request_target :
    forall r, In r (requests st) ->
      r_fromId r <> r_toId r
      /\ exists s, In s (skills st)
                   /\ s_id s = r_skillId r /\ s_ownerId s = r_toId r;
  inv_one_pending :
    forall r1 r2, In r1 (requests st) -> In r2 (requests st) ->
      r_fromId r1 = r_fromId r2 -> r_skillId r1 = r_skillId r2 ->
      r_status r1 = pending -> r_status r2 = pending -> r1 = r2
}.

(** ** Example stores *)

Definition alice : User :=
  mkUser 1 "Alice" "alice@example.com" "$2a$10$a" "" 0 "Student".
Definition bob : User :=
  mkUser 2 "Bob" "bob@example.com" "$2a$10$b" "" 0 "Chef".
Definition carol : User :=
  mkUser 3 "Carol" "carol@example.com" "$2a$10$c" "" 0 "".

Definition seed_db : Db := mkDb [alice; bob; carol] [] [] [] [] 1 1 1 1 [].

(** Alice wants "cooking"; Bob offers "Cooking Basics" (skill 1) and Alice
    "Guitar Lessons for Beginners" (skill 2). *)
Definition catalog_db : Db :=
  run [ CreateWant 100 1 (Some "cooking") None;
        CreateSkill 110 2 (Some "Cooking Basics") (Some "knife skills")
                    (Some ("110-7.mp4", "bytes of 110-7.mp4"));
        CreateSkill 120 1 (Some "Guitar Lessons for Beginners") None
                    (Some ("120-9.mp4", "bytes of 120-9.mp4")) ]
      seed_db.

(** Alice has asked for skill 1 (request 1, pending). *)
Definition requested_db : Db := run [CreateRequest 130 1 1] catalog_db.

(** Bob has accepted request 1. *)
Definition granted_db : Db := run [Accept 2 1] requested_db.

(** The catalog after the media files were removed from [UPLOAD_DIR]. *)
Definition files_lost_db : Db := with_files [] catalog_db.

(** Bob has declined request 1. *)
Definition declined_db : Db := run [Decline 2 1] requested_db.


(** ** Authentication *)

(** [s.split(" ")]: the pieces of [s] between single spaces. *)
Fixpoint split_spaces (s : string) : list string :=
  match s with
  | EmptyString => [EmptyString]
  | String c rest =>
      if Ascii.eqb c " " then EmptyString :: split_spaces rest
      else match split_spaces rest with
           | piece :: pieces => String c piece :: pieces
           | [] => [String c EmptyString]
           end
  end.

Fixpoint has_space (s : string) : bool :=
  match s with
  | EmptyString => false
  | String c rest => Ascii.eqb c " " || has_space rest
  end.

(** [req.headers.authorization?.split(" ")[1]] when it is a string that is
    not empty; [None] stands for the values [||] skips. *)
Definition header_token (authorization : option string) : option string :=
  match authorization with
  | None => None
  | Some h =>
      match nth_error (split_spaces h) 1 with
      | Some EmptyString => None
      | Some t => Some t
      | None => None
      end
  end.

(** [header token || req.query.token || null]; [None] is [null]. *)
Definition request_token (authorization : option string)
  (qtoken : option QueryValue) : option QueryValue :=
  match header_token authorization with
  | Some t => Some (QString t)
  | None =>
      match qtoken with
      | Some (QString EmptyString) => None
      | other => other
      end
  end.

(** What the [auth] middleware decides: [next()] with [req.user.id], or the
    answer it sends itself. *)
Inductive Gate :=
| Pass (user : Z)
| Stop (status : Z) (error : string).

(** The [auth] middleware.  [jwt_verify token] is the identifier in the
    payload when [jwt.verify] accepts the token with the server's secret,
    and [None] when it throws; a token that is not a string makes it
    throw. *)
Definition auth (jwt_verify : string -> option Z)
  (authorization : option string) (qtoken : option QueryValue) : Gate :=
  match request_token authorization qtoken with
  | None => Stop 401 "Unauthorized"
  | Some (QString token) =>
      match jwt_verify token with
      | Some user => Pass user
      | None => Stop 401 "Invalid token"
      end
  | Some _ => Stop 401 "Invalid token"
  end.

(** ** Accounts *)

(** The store together with the identifier sequence of the user table. *)
Record Accounts := mkAccounts {
  store : Db;
  seq_user : Z
}.

Definition with_users (l : list User) (st : Db) : Db :=
  mkDb l (skills st) (wants st) (requests st) (permissions st)
       (seq_skill st) (seq_want st) (seq_request st) (seq_permission st)
       (files st).

(** The fields [/register] reads from the body, text fields as strings and
    [age] as an integer; [None] is a field that is absent. *)
Record Registration := mkRegistration {
  reg_name : option string;
  reg_email : option string;
  reg_password : option string;
  reg_mobile : option string;
  reg_age : option Z;
  reg_profession : option string
}.

(** How the account routes end: [res.status(code).json(body)], the same with
    [{ error }], or an exception outside any [try]. *)
Inductive Reply (A : Type) : Type :=
| Replied (status : Z) (body : A)
| Refused (status : Z) (error : string)
| Crashed.

Arguments Replied {A} status body.
Arguments Refused {A} status error.
Arguments Crashed {A}.

(** A field that is not falsy: present and not the empty string. *)
Definition truthy (field : option string) : option string :=
  match field with
  | Some EmptyString => None
  | other => other
  end.

(** [field || ""] *)
Definition or_empty (field : option string) : string :=
  match field with
  | Some s => s
  | None => EmptyString
  end.

(** [Number(age || 0)] *)
Definition age_number (age : option Z) : Z :=
  match age with
  | Some n => n
  | None => 0
  end.

(** [prisma.user.create]: [age] is an [Int] column, and the call throws on
    an age it cannot hold. *)
Definition user_create (name email hashed mobile : string) (age : Z)
  (profession : string) (a : Accounts) : Prisma.Error + Accounts * User :=
  match Prisma.checked_int "age" age with
  | inl e => inl e
  | inr age' =>
      let user :=
        mkUser (seq_user a) name email hashed mobile age' profession in
      inr (mkAccounts (with_users (users (store a) ++ [user]) (store a))
                      (seq_user a + 1),
           user)
  end.

(** POST /register.  [hashed] is what [bcrypt.hash(password, 10)] returned
    for this call (the salt is drawn at random).  [email] is a unique
    column, which [findUnique] by it requires.  The whole handler is inside
    a [try]: what the store throws is answered with status 500. *)
Definition register (hashed : string) (body : Registration) (a : Accounts)
  : Accounts * Reply PartyInfo :=
  match truthy (reg_name body), truthy (reg_email body),
        truthy (reg_password body) with
  | Some name, Some email, Some _ =>
      match Prisma.findFirst (fun u => String.eqb (u_email u) email)
                             (users (store a)) with
      | Some _ => (a, Refused 409 "Email already registered")
      | None =>
          match user_create name email hashed (or_empty (reg_mobile body))
                            (age_number (reg_age body))
                            (or_empty (reg_profession body)) a with
          | inr (a', user) =>
              (a', Replied 201 (mkPartyInfo (u_id user) (u_name user)
                                            (u_email user)))
          | inl _ => (a, Refused 500 "Internal server error")
          end
      end
  | _, _, _ => (a, Refused 400 "name, email and password are required")
  end.

(** [{ token, user: { id, name, email } }] *)
Record LoginBody := mkLoginBody {
  lb_token : string;
  lb_user : PartyInfo
}.

(** POST /login.  [bcrypt_compare password hash] is the answer of
    [bcrypt.compare], [jwt_sign id] the token [jwt.sign({ id }, ...)] makes.
    The handler has no [try]: a body without [email] makes [findUnique]
    throw, one without [password] makes [bcrypt.compare] throw. *)
Definition login (bcrypt_compare : string -> string -> bool)
  (jwt_sign : Z -> string) (email password : option string) (st : Db)
  : Reply LoginBody :=
  match email with
  | None => Crashed
  | Some e =>
      match Prisma.findFirst (fun u => String.eqb (u_email u) e) (users st) with
      | None => Refused 400 "Invalid credentials"
      | Some user =>
          match password with
          | None => Crashed
          | Some p =>
              if negb (bcrypt_compare p (u_password user))
              then Refused 400 "Invalid credentials"
              else Replied 200
                     (mkLoginBody (jwt_sign (u_id user))
                        (mkPartyInfo (u_id user) (u_name user) (u_email user)))
          end
      end
  end.

(** GET /me *)
Definition me (user : Z) (st : Db) : Response OwnerInfo :=
  match owner_info st user with
  | Some info => Sent info
  | None => Fail 404 "User not found"
  end.

(** ** Authorized videos *)

(** [owner: { select: { id: true, name: true } }] *)
Record NamedOwner := mkNamedOwner {
  no_id : Z;
  no_name : string
}.

Record AuthorizedVideo := mkAuthorizedVideo {
  av_video : Skill;
  av_owner : option NamedOwner
}.

(** [p.video] with its owner; [None] only when the row's skill is not in the
    store. *)
Definition permission_video (st : Db) (p : Permission)
  : option AuthorizedVideo :=
  match Prisma.findUnique s_id (p_videoId p) (skills st) with
  | Some video =>
      Some (mkAuthorizedVideo video
              (match Prisma.findUnique u_id (s_ownerId video) (users st) with
               | Some u => Some (mkNamedOwner (u_id u) (u_name u))
               | None => None
               end))
  | None => None
  end.

(** GET /authorized *)
Definition authorized (user : Z) (st : Db)
  : Response (list (option AuthorizedVideo)) :=
  let perms :=
    Prisma.orderBy_desc p_id
      (Prisma.findMany (fun p => p_userId p =? user) (permissions st)) in
  Sent (map (permission_video st) perms).

(** ** Further vocabulary *)

(** Distinct identifiers below the sequence and distinct emails in the user
    table. *)
Record UsersInv (a : Accounts) : Prop := mkUsersInv {
  uinv_ids : NoDup (map u_id (users (store a)));
  uinv_seq : forall u, In u (users (store a)) -> u_id u < seq_user a;
  uinv_emails : NoDup (map u_email (users (store a)))
}.

Definition email_registered (st : Db) (email : string) : Prop :=
  exists u, In u (users st) /\ u_email u = email.

(** Every Permission row answers a request of its holder for that skill
    which has been resolved. *)
Definition Granted (st : Db) : Prop :=
  forall p, In p (permissions st) ->
    exists r, In r (requests st)
              /\ r_fromId r = p_userId p /\ r_skillId r = p_videoId p
              /\ r_status r <> pending.

(** [st'] keeps the skill and Permission rows of [st] in front of its own
    and every file name of [st]. *)
Definition grows (st st' : Db) : Prop :=
  (exists more, skills st' = skills st ++ more)
  /\ (exists more, permissions st' = permissions st ++ more)
  /\ (forall name, read_file name (files st) <> None ->
                   read_file name (files st') <> None).

(** The calls that can change what the stream gate answers. *)
Definition may_change_access (c : Call) : bool :=
  match c with
  | CreateSkill _ _ _ _ _ | Accept _ _ => true
  | _ => false
  end.

(** ** Example accounts *)

Definition old_form : Registration :=
  mkRegistration (Some "Olga") (Some "olga@example.com") (Some "pass")
                 None (Some 2147483648) None.

Definition dana_form : Registration :=
  mkRegistration (Some "Dana") (Some "dana@example.com") (Some "s3cret")
                 None (Some 31) None.

Definition no_accounts : Accounts := mkAccounts empty_db 1.

Definition dana_accounts : Accounts :=
  fst (register "$2a$10$s3cret" dana_form no_accounts).

(** Stand-ins for the two libraries in examples. *)
Definition demo_compare (password hash : string) : bool :=
  String.eqb (String.append "$2a$10$" password) hash.

Definition demo_sign (id : Z) : string :=
  if id =? 1 then "header.one.sig" else "header.other.sig".

Definition demo_verify (token : string) : option Z :=
  if String.eqb token "header.one.sig" then Some 1 else None.

(** * Facts about the query operations *)

Section TableFacts.
Context {A : Type} (key : A -> Z).

Lemma findUnique_Some (k : Z) (rows : list A) (a : A) :
  Prisma.findUnique key k rows = Some a -> In a rows /\ key a = k.
Proof.
  unfold Prisma.findUnique. intros H.
  apply find_some in H. destruct H as [Hin Hk].
  split; [assumption | now apply Z.eqb_eq].
Qed.

Lemma findUnique_None (k : Z) (rows : list A) :
  Prisma.findUnique key k rows = None <-> (forall a, In a rows -> key a <> k).
Proof.
  unfold Prisma.findUnique. split.
  - intros H a Hin Hk.
    pose proof (find_none _ _ H a Hin) as Hf. simpl in Hf.
    apply Z.eqb_neq in Hf. contradiction.
  - intros H. induction rows as [|b rest IH]; simpl; [reflexivity|].
    destruct (key b =? k) eqn:E.
    + apply Z.eqb_eq in E. exfalso. apply (H b); [now left | assumption].
    + apply IH. intros a Ha. apply H. now right.
Qed.

Lemma findUnique_In (rows : list A) (a : A) :
  NoDup (map key rows) -> In a rows ->
  Prisma.findUnique key (key a) rows = Some a.
Proof.
  unfold Prisma.findUnique.
  induction rows as [|b rest IH]; simpl; intros Hnd Hin; [contradiction|].
  inversion Hnd as [|x l Hnotin Hnd']; subst.
  destruct Hin as [->|Hin].
  - now rewrite Z.eqb_refl.
  - destruct (key b =? key a) eqn:E.
    + apply Z.eqb_eq in E. exfalso. apply Hnotin. rewrite E.
      now apply in_map.
    + now apply IH.
Qed.

(** An update of a row that [findUnique] sees rewrites exactly that row. *)
Lemma update_found (k : Z) (rows : list A) (a : A) :
  Prisma.findUnique key k rows = Some a ->
  exists before after,
    rows = before ++ a :: after
    /\ (forall x, In x before -> key x <> k)
    /\ forall data : A -> A,
         Prisma.update key k data rows
         = Some (before ++ data a :: after, data a).
Proof.
  unfold Prisma.findUnique.
  induction rows as [|b rest IH]; simpl; intros H; [discriminate|].
  destruct (key b =? k) eqn:E.
  - injection H as ->. exists [], rest. simpl.
    repeat split. intros x [].
  - destruct (IH H) as (before & after & -> & Hbefore & Hupd).
    exists (b :: before), after. simpl.
    split; [reflexivity|]. split.
    + intros x [<-|Hx]; [now apply Z.eqb_neq | now apply Hbefore].
    + intros data. now rewrite Hupd.
Qed.

Lemma insert_desc_perm (a : A) (l : list A) :
  Permutation (a :: l) (Prisma.insert_desc key a l).
Proof.
  induction l as [|b rest IH]; simpl; [reflexivity|].
  destruct (key b <=? key a); [reflexivity|].
  rewrite perm_swap. now apply perm_skip.
Qed.

Lemma orderBy_desc_perm (l : list A) :
  Permutation l (Prisma.orderBy_desc key l).
Proof.
  induction l as [|a rest IH]; simpl; [constructor|].
  rewrite <- insert_desc_perm. now apply perm_skip.
Qed.

Lemma insert_desc_sorted (a : A) (l : list A) :
  Sorted (Prisma.newest_first key) l -> Sorted (Prisma.newest_first key) (Prisma.insert_desc key a l).
Proof.
  induction l as [|b rest IH]; simpl; intros Hs.
  - repeat constructor.
  - destruct (key b <=? key a) eqn:E.
    + constructor; [assumption|]. constructor. now apply Z.leb_le.
    + apply Z.leb_gt in E. inversion Hs as [|x l' Hs' Hhd]; subst.
      constructor; [now apply IH|].
      destruct rest as [|c rest']; simpl.
      * constructor. unfold Prisma.newest_first. lia.
      * destruct (key c <=? key a); constructor; unfold Prisma.newest_first.
        -- lia.
        -- now inversion Hhd.
Qed.

Lemma orderBy_desc_sorted (l : list A) :
  Sorted (Prisma.newest_first key) (Prisma.orderBy_desc key l).
Proof.
  induction l as [|a rest IH]; simpl; [constructor|].
  now apply insert_desc_sorted.
Qed.

Lemma orderBy_desc_In (l : list A) (a : A) :
  In a (Prisma.orderBy_desc key l) <-> In a l.
Proof.
  split; intros H.
  - eapply Permutation_in; [symmetry; apply orderBy_desc_perm | assumption].
  - eapply Permutation_in; [apply orderBy_desc_perm | assumption].
Qed.


End TableFacts.

(** * The consistency of the store is kept by every call *)

Lemma NoDup_map_snoc {A B : Type} (f : A -> B) (l : list A) (a : A) :
  NoDup (map f l) -> ~ In (f a) (map f l) -> NoDup (map f (l ++ [a])).
Proof.
  intros Hnd Hnew. rewrite map_app. simpl.
  apply NoDup_app; [assumption | repeat constructor; intros [] |].
  intros x Hx [<-|[]]. contradiction.
Qed.

Lemma fresh_id {A : Type} (key : A -> Z) (l : list A) (n : Z) :
  (forall a, In a l -> key a < n) -> ~ In n (map key l).
Proof.
  intros Hlt Hin. apply in_map_iff in Hin. destruct Hin as (a & Hk & Ha).
  specialize (Hlt a Ha). lia.
Qed.

Lemma Inv_seed : Inv seed_db.
Proof.
  constructor; simpl; try constructor; intros; contradiction.
Qed.

Lemma Inv_with_files (fs : list (string * string)) (st : Db) :
  Inv st -> Inv (with_files fs st).
Proof. intros []. constructor; assumption. Qed.

Lemma Inv_skill_create now title description videoPath ownerId st :
  Inv st ->
  Inv (fst (skill_create now title description videoPath ownerId st)).
Proof.
  intros HI. unfold skill_create. destruct title as [t|]; [|exact HI].
  destruct HI as [Hsid Hsseq Hrid Hrseq Hpk Htarget Hone].
  constructor; simpl; try assumption.
  - apply NoDup_map_snoc; [assumption|]. simpl. now apply fresh_id.
  - intros s Hs. apply in_app_or in Hs. destruct Hs as [Hs|[<-|[]]].
    + specialize (Hsseq s Hs). lia.
    + simpl. lia.
  - intros r Hr. destruct (Htarget r Hr) as (Hne & s & Hs & Hid & Hown).
    split; [assumption|]. exists s. split; [|now split].
    apply in_or_app. now left.
Qed.

Lemma Inv_createSkill now user title description file st :
  Inv st -> Inv (fst (createSkill now user title description file st)).
Proof.
  intros HI. unfold createSkill. destruct file as [[filename content]|].
  - pose proof (Inv_skill_create now title description filename user _
                  (Inv_with_files ((filename, content) :: files st) st HI))
      as H.
    unfold multer_single.
    destruct (skill_create now title description filename user
                (with_files ((filename, content) :: files st) st))
      as [st' [e|skill]]; exact H.
  - exact HI.
Qed.

Lemma Inv_createWant now user title description st :
  Inv st -> Inv (fst (createWant now user title description st)).
Proof.
  intros HI. unfold createWant, want_create.
  destruct title as [t|]; simpl; [|exact HI].
  destruct HI. constructor; assumption.
Qed.

Lemma findFirst_pending_None (user videoId : Z) (rows : list Request) :
  Prisma.findFirst
    (fun r => (r_fromId r =? user) && (r_skillId r =? videoId)
              && Status_eqb (r_status r) pending) rows = None ->
  forall r, In r rows -> r_fromId r = user -> r_skillId r = videoId ->
            r_status r <> pending.
Proof.
  unfold Prisma.findFirst. intros H r Hr Hf Hs Hp.
  pose proof (find_none _ _ H r Hr) as Hb. simpl in Hb.
  rewrite Hf, Hs, Hp, !Z.eqb_refl in Hb. discriminate.
Qed.

Lemma Inv_createRequest now user videoId st :
  Inv st -> Inv (fst (createRequest now user videoId st)).
Proof.
  intros HI. unfold createRequest.
  destruct (Prisma.findUnique s_id videoId (skills st)) as [video|] eqn:Hv;
    [|exact HI].
  destruct (s_ownerId video =? user) eqn:Hown; [exact HI|].
  destruct (Prisma.findFirst _ (requests st)) as [r0|] eqn:Hex; [exact HI|].
  apply findUnique_Some in Hv. destruct Hv as [Hvin Hvid].
  apply Z.eqb_neq in Hown.
  pose proof (findFirst_pending_None _ _ _ Hex) as Hnone.
  destruct HI as [Hsid Hsseq Hrid Hrseq Hpk Htarget Hone].
  constructor; simpl; try assumption.
  - apply NoDup_map_snoc; [assumption|]. simpl. now apply fresh_id.
  - intros r Hr. apply in_app_or in Hr. destruct Hr as [Hr|[<-|[]]].
    + specialize (Hrseq r Hr). lia.
    + simpl. lia.
  - intros r Hr. apply in_app_or in Hr. destruct Hr as [Hr|[<-|[]]].
    + now apply Htarget.
    + simpl. split; [congruence|]. exists video. now repeat split.
  - intros r1 r2 H1 H2 Hf Hs Hp1 Hp2.
    apply in_app_or in H1. apply in_app_or in H2.
    destruct H1 as [H1|[<-|[]]], H2 as [H2|[<-|[]]].
    + now apply Hone.
    + simpl in Hf, Hs. exfalso. now apply (Hnone r1 H1).
    + simpl in Hf, Hs. exfalso. apply (Hnone r2 H2); congruence.
    + reflexivity.
Qed.

(** Rewriting the status of one row to a resolved status. *)
Lemma Inv_resolve (s : Status) (r : Request) (before after : list Request)
  (st : Db) :
  s <> pending ->
  requests st = before ++ r :: after ->
  Inv st ->
  Inv (with_requests (before ++ with_status s r :: after) (seq_request st) st).
Proof.
  intros Hs Hrows [Hsid Hsseq Hrid Hrseq Hpk Htarget Hone].
  assert (Hold : forall x, In x (before ++ with_status s r :: after) ->
                 x = with_status s r \/ In x (requests st)).
  { intros x Hx. rewrite Hrows. apply in_app_or in Hx.
    destruct Hx as [Hx|[<-|Hx]].
    - right. apply in_or_app. now left.
    - now left.
    - right. apply in_or_app. right. now right. }
  assert (Hr : In r (requests st)).
  { rewrite Hrows. apply in_or_app. right. now left. }
  constructor; simpl; try assumption.
  - rewrite Hrows in Hrid. rewrite map_app in *. exact Hrid.
  - intros x Hx. destruct (Hold x Hx) as [->|Hx'].
    + simpl. now apply Hrseq.
    + now apply Hrseq.
  - intros x Hx. destruct (Hold x Hx) as [->|Hx'].
    + simpl. now apply Htarget.
    + now apply Htarget.
  - intros r1 r2 H1 H2 Hf Hsk Hp1 Hp2.
    destruct (Hold r1 H1) as [->|H1']; [simpl in Hp1; contradiction|].
    destruct (Hold r2 H2) as [->|H2']; [simpl in Hp2; contradiction|].
    now apply Hone.
Qed.

Lemma findFirst_key_None (u v : Z) (rows : list Permission) :
  Prisma.findFirst (has_key u v) rows = None <->
  ~ In (u, v) (map (fun p => (p_userId p, p_videoId p)) rows).
Proof.
  unfold Prisma.findFirst, has_key.
  induction rows as [|p rest IH]; simpl; [tauto|].
  destruct (p_userId p =? u) eqn:Eu, (p_videoId p =? v) eqn:Ev; simpl.
  - apply Z.eqb_eq in Eu, Ev. subst. split; [discriminate|tauto].
  - apply Z.eqb_neq in Ev. rewrite IH. split.
    + intros H [Heq|Hin]; [congruence | contradiction].
    + tauto.
  - apply Z.eqb_neq in Eu. rewrite IH. split.
    + intros H [Heq|Hin]; [congruence | contradiction].
    + tauto.
  - apply Z.eqb_neq in Eu. rewrite IH. split.
    + intros H [Heq|Hin]; [congruence | contradiction].
    + tauto.
Qed.

Lemma Inv_permission_upsert (u v : Z) (st : Db) :
  Inv st -> Inv (permission_upsert u v st).
Proof.
  intros HI. unfold permission_upsert.
  destruct (Prisma.findFirst (has_key u v) (permissions st)) eqn:E;
    [exact HI|].
  apply findFirst_key_None in E.
  destruct HI. constructor; simpl; try assumption.
  now apply NoDup_map_snoc.
Qed.

Lemma Inv_accept user id st : Inv st -> Inv (fst (accept user id st)).
Proof.
  intros HI. unfold accept.
  destruct (Prisma.findUnique r_id id (requests st)) as [r|] eqn:Hr;
    [|exact HI].
  destruct (negb (r_toId r =? user)); [exact HI|].
  destruct (update_found r_id id _ _ Hr)
    as (before & after & Hrows & _ & Hupd).
  rewrite Hupd. simpl. apply Inv_permission_upsert.
  now apply Inv_resolve.
Qed.

Lemma Inv_decline user id st : Inv st -> Inv (fst (decline user id st)).
Proof.
  intros HI. unfold decline.
  destruct (Prisma.findUnique r_id id (requests st)) as [r|] eqn:Hr;
    [|exact HI].
  destruct (negb (r_toId r =? user)); [exact HI|].
  destruct (update_found r_id id _ _ Hr)
    as (before & after & Hrows & _ & Hupd).
  rewrite Hupd. simpl. now apply Inv_resolve.
Qed.

Lemma Inv_perform (c : Call) (st : Db) : Inv st -> Inv (perform c st).
Proof.
  destruct c; simpl.
  - apply Inv_createSkill.
  - apply Inv_createWant.
  - apply Inv_createRequest.
  - apply Inv_accept.
  - apply Inv_decline.
Qed.

(** Every store a sequence of calls leads to from a consistent one is
    consistent. *)
Lemma Inv_run (calls : list Call) (st : Db) : Inv st -> Inv (run calls st).
Proof.
  unfold run. revert st.
  induction calls as [|c rest IH]; simpl; intros st HI; [exact HI|].
  apply IH. now apply Inv_perform.
Qed.

Lemma Inv_catalog : Inv catalog_db.
Proof. apply Inv_run, Inv_seed. Qed.

Lemma Inv_requested : Inv requested_db.
Proof. apply Inv_run, Inv_catalog. Qed.

Lemma Inv_granted : Inv granted_db.
Proof. apply Inv_run, Inv_requested. Qed.

(** * What the handlers do on a consistent store *)

Lemma findUnique_middle {A : Type} (key : A -> Z) (k : Z)
  (before after : list A) (a : A) :
  (forall x, In x before -> key x <> k) -> key a = k ->
  Prisma.findUnique key k (before ++ a :: after) = Some a.
Proof.
  unfold Prisma.findUnique. intros Hb Ha.
  induction before as [|b rest IH]; simpl.
  - rewrite Ha, Z.eqb_refl. reflexivity.
  - destruct (key b =? k) eqn:E.
    + apply Z.eqb_eq in E. exfalso. apply (Hb b); [now left | assumption].
    + apply IH. intros x Hx. apply Hb. now right.
Qed.

Lemma find_skill (st : Db) (s : Skill) :
  Inv st -> In s (skills st) ->
  Prisma.findUnique s_id (s_id s) (skills st) = Some s.
Proof. intros HI Hs. apply findUnique_In; [apply HI | assumption]. Qed.

Lemma find_request (st : Db) (r : Request) :
  Inv st -> In r (requests st) ->
  Prisma.findUnique r_id (r_id r) (requests st) = Some r.
Proof. intros HI Hr. apply findUnique_In; [apply HI | assumption]. Qed.

Lemma no_skill_None (st : Db) (sid : Z) :
  ~ skill_exists st sid -> Prisma.findUnique s_id sid (skills st) = None.
Proof.
  intros H. apply findUnique_None. intros s Hs Hid. apply H. now exists s.
Qed.


Lemma findFirst_pending_Some (user videoId : Z) (rows : list Request)
  (r : Request) :
  Prisma.findFirst
    (fun r => (r_fromId r =? user) && (r_skillId r =? videoId)
              && Status_eqb (r_status r) pending) rows = Some r ->
  In r rows /\ r_fromId r = user /\ r_skillId r = videoId
  /\ r_status r = pending.
Proof.
  unfold Prisma.findFirst. intros H. apply find_some in H.
  destruct H as [Hin Hb]. apply andb_prop in Hb. destruct Hb as [Hb Hs].
  apply andb_prop in Hb. destruct Hb as [Hf Hk].
  apply Z.eqb_eq in Hf, Hk. repeat split; try assumption.
  destruct (r_status r); simpl in Hs; congruence.
Qed.

Lemma findFirst_key_Some (u v : Z) (rows : list Permission) (p : Permission) :
  Prisma.findFirst (has_key u v) rows = Some p ->
  In p rows /\ p_userId p = u /\ p_videoId p = v.
Proof.
  unfold Prisma.findFirst, has_key. intros H. apply find_some in H.
  destruct H as [Hin Hb]. apply andb_prop in Hb. destruct Hb as [Hu Hv].
  apply Z.eqb_eq in Hu, Hv. now repeat split.
Qed.

Lemma has_permission_found (st : Db) (u v : Z) :
  has_permission st u v <->
  exists p, Prisma.findFirst (has_key u v) (permissions st) = Some p.
Proof.
  split.
  - intros (p & Hin & Hu & Hv).
    destruct (Prisma.findFirst (has_key u v) (permissions st)) as [q|] eqn:E.
    + now exists q.
    + exfalso. unfold Prisma.findFirst in E.
      pose proof (find_none _ _ E p Hin) as Hb. unfold has_key in Hb.
      rewrite Hu, Hv, !Z.eqb_refl in Hb. discriminate.
  - intros (p & Hp). apply findFirst_key_Some in Hp. now exists p.
Qed.

(** The create handler on a skill of somebody else with no pending request
    of the caller. *)
Lemma createRequest_succeeds (now u : Z) (s : Skill) (st : Db) :
  Inv st -> In s (skills st) -> s_ownerId s <> u ->
  ~ has_pending st u (s_id s) ->
  let r := mkRequest (seq_request st) u (s_ownerId s) (s_id s) pending now in
  createRequest now u (s_id s) st
  = (with_requests (requests st ++ [r]) (seq_request st + 1) st, Sent r).
Proof.
  intros HI Hs Hown Hnone. unfold createRequest.
  rewrite (find_skill st s HI Hs).
  apply Z.eqb_neq in Hown. rewrite Hown.
  destruct (Prisma.findFirst _ (requests st)) as [r0|] eqn:E.
  - exfalso. apply Hnone. apply findFirst_pending_Some in E. now exists r0.
  - reflexivity.
Qed.

(** Accept and Decline by the target of a stored request. *)
Lemma resolve_by_target (r : Request) (st : Db) :
  Inv st -> In r (requests st) ->
  exists before after,
    requests st = before ++ r :: after
    /\ (forall x, In x before -> r_id x <> r_id r)
    /\ accept (r_toId r) (r_id r) st
       = (permission_upsert (r_fromId r) (r_skillId r)
            (with_requests (before ++ with_status accepted r :: after)
                           (seq_request st) st),
          Sent (with_status accepted r))
    /\ decline (r_toId r) (r_id r) st
       = (with_requests (before ++ with_status declined r :: after)
                        (seq_request st) st,
          Sent (with_status declined r)).
Proof.
  intros HI Hr. pose proof (find_request st r HI Hr) as Hf.
  destruct (update_found r_id (r_id r) _ _ Hf)
    as (before & after & Hrows & Hb & Hupd).
  exists before, after. split; [assumption|]. split; [assumption|].
  unfold accept, decline. rewrite Hf, Z.eqb_refl, !Hupd. now split.
Qed.

Lemma accept_by_target (r : Request) (st : Db) :
  Inv st -> In r (requests st) ->
  exists before after,
    requests st = before ++ r :: after
    /\ (forall x, In x before -> r_id x <> r_id r)
    /\ accept (r_toId r) (r_id r) st
       = (permission_upsert (r_fromId r) (r_skillId r)
            (with_requests (before ++ with_status accepted r :: after)
                           (seq_request st) st),
          Sent (with_status accepted r)).
Proof.
  intros HI Hr.
  destruct (resolve_by_target r st HI Hr) as (b & a & H1 & H2 & H3 & _).
  now exists b, a.
Qed.


Lemma permission_upsert_frame (u v : Z) (st : Db) :
  users (permission_upsert u v st) = users st
  /\ skills (permission_upsert u v st) = skills st
  /\ wants (permission_upsert u v st) = wants st
  /\ requests (permission_upsert u v st) = requests st
  /\ files (permission_upsert u v st) = files st.
Proof.
  unfold permission_upsert.
  destruct (Prisma.findFirst (has_key u v) (permissions st));
    repeat split; reflexivity.
Qed.


(** * The request lifecycle *)




Lemma getStream_fits (v sid : Z) (st : Db) :
  Prisma.fits_int sid = true -> getStream v sid st = stream v sid st.
Proof.
  intros H. unfold getStream, Prisma.checked_int. now rewrite H.
Qed.









(** * Permissions *)

Lemma key_count (u v : Z) (rows : list Permission) :
  NoDup (map (fun p => (p_userId p, p_videoId p)) rows) ->
  List.length (filter (has_key u v) rows)
  = match Prisma.findFirst (has_key u v) rows with
    | Some _ => 1%nat
    | None => 0%nat
    end.
Proof.
  induction rows as [|p rest IH]; simpl; intros Hnd; [reflexivity|].
  inversion Hnd as [|k l Hnotin Hnd']; subst.
  destruct (has_key u v p) eqn:E; simpl.
  - unfold has_key in E. apply andb_prop in E. destruct E as [Eu Ev].
    apply Z.eqb_eq in Eu, Ev. rewrite Eu, Ev in Hnotin.
    apply findFirst_key_None in Hnotin.
    rewrite (IH Hnd'), Hnotin. reflexivity.
  - now apply IH.
Qed.

Lemma find_snoc {A : Type} (f : A -> bool) (l : list A) (a : A) :
  find f l = None -> f a = true -> find f (l ++ [a]) = Some a.
Proof.
  induction l as [|b rest IH]; simpl; intros Hn Ha.
  - now rewrite Ha.
  - destruct (f b); [discriminate | now apply IH].
Qed.

Lemma has_key_refl (n u v : Z) : has_key u v (mkPermission n u v) = true.
Proof. unfold has_key. simpl. now rewrite !Z.eqb_refl. Qed.

Lemma upsert_again (u v : Z) (st : Db) :
  permission_upsert u v (permission_upsert u v st) = permission_upsert u v st.
Proof.
  unfold permission_upsert at 2 3.
  destruct (Prisma.findFirst (has_key u v) (permissions st)) as [p|] eqn:E.
  - unfold permission_upsert. now rewrite E.
  - unfold permission_upsert. simpl. unfold Prisma.findFirst in *.
    rewrite (find_snoc _ _ _ E (has_key_refl _ u v)). reflexivity.
Qed.

Lemma upsert_with_requests (u v : Z) (l : list Request) (n : Z) (st : Db) :
  permission_upsert u v (with_requests l n st)
  = with_requests l n (permission_upsert u v st).
Proof.
  unfold permission_upsert. simpl.
  destruct (Prisma.findFirst (has_key u v) (permissions st)); reflexivity.
Qed.

Lemma upsert_one_row (u v : Z) (st : Db) :
  Inv st ->
  List.length (permission_rows (permission_upsert u v st) u v) = 1%nat.
Proof.
  intros HI. unfold permission_rows.
  rewrite (key_count u v _ (inv_permission_keys _ (Inv_permission_upsert u v st HI))).
  destruct (Prisma.findFirst (has_key u v)
              (permissions (permission_upsert u v st))) eqn:E; [reflexivity|].
  exfalso. revert E. unfold permission_upsert.
  destruct (Prisma.findFirst (has_key u v) (permissions st)) eqn:E0.
  - rewrite E0. discriminate.
  - simpl. unfold Prisma.findFirst in *.
    rewrite (find_snoc _ _ _ E0 (has_key_refl _ u v)). discriminate.
Qed.

(** Repeated acceptance by the target: every call succeeds, and the
    Permission table is the one a single upsert leaves. *)
Lemma accept_times_by_target (n : nat) :
  forall (r : Request) (st : Db),
    Inv st -> In r (requests st) ->
    let after := accept_times (S n) (r_toId r) (r_id r) st in
    snd after = repeat (Sent (with_status accepted r)) (S n)
    /\ permissions (fst after)
       = permissions (permission_upsert (r_fromId r) (r_skillId r) st).
Proof.
  induction n as [|k IH]; intros r st HI Hr.
  - destruct (accept_by_target r st HI Hr) as (b & a & _ & _ & Hacc).
    simpl. rewrite Hacc. simpl. split; [reflexivity|].
    now rewrite upsert_with_requests.
  - destruct (accept_by_target r st HI Hr) as (b & a & Hrows & _ & Hacc).
    pose proof (Inv_accept (r_toId r) (r_id r) st HI) as HI1.
    rewrite Hacc in HI1. simpl fst in HI1.
    set (st1 := permission_upsert (r_fromId r) (r_skillId r)
                  (with_requests (b ++ with_status accepted r :: a)
                                 (seq_request st) st)) in *.
    assert (Hr1 : In (with_status accepted r) (requests st1)).
    { destruct (permission_upsert_frame (r_fromId r) (r_skillId r)
                  (with_requests (b ++ with_status accepted r :: a)
                                 (seq_request st) st))
        as (_ & _ & _ & Hrq & _).
      fold st1 in Hrq. rewrite Hrq. simpl. apply in_or_app. right. now left. }
    specialize (IH (with_status accepted r) st1 HI1 Hr1).
    simpl r_toId in IH. simpl r_id in IH. simpl r_fromId in IH.
    simpl r_skillId in IH. simpl with_status in IH.
    cbv zeta in IH. destruct IH as (Hresp & Hperm).
    change (accept_times (S (S k)) (r_toId r) (r_id r) st)
      with (let (s1, resp) := accept (r_toId r) (r_id r) st in
            let (s2, resps) := accept_times (S k) (r_toId r) (r_id r) s1 in
            (s2, resp :: resps)).
    cbv zeta. rewrite Hacc. fold st1.
    destruct (accept_times (S k) (r_toId r) (r_id r) st1) as [s2 resps].
    simpl in Hresp, Hperm |- *. split.
    + rewrite Hresp. reflexivity.
    + rewrite Hperm. unfold st1. rewrite upsert_again.
      now rewrite upsert_with_requests.
Qed.

(** C3. Accepting a request [n >= 1] times as its target succeeds each time
    and leaves exactly one Permission row with the key
    [(r.fromId, r.skillId)]: when the row was there before, the Permission
    table is unchanged; otherwise it gained that single row. *)
Theorem accept_times_one_permission (n : nat) (r : Request) (st : Db) :
  Inv st -> In r (requests st) -> (1 <= n)%nat ->
  let after := accept_times n (r_toId r) (r_id r) st in
  snd after = repeat (Sent (with_status accepted r)) n
  /\ List.length (permission_rows (fst after) (r_fromId r) (r_skillId r))
     = 1%nat
  /\ (has_permission st (r_fromId r) (r_skillId r) ->
      permissions (fst after) = permissions st)
  /\ (~ has_permission st (r_fromId r) (r_skillId r) ->
      permissions (fst after)
      = permissions st
        ++ [mkPermission (seq_permission st) (r_fromId r) (r_skillId r)]).
Proof.
  intros HI Hr Hn. destruct n as [|k]; [lia|].
  destruct (accept_times_by_target k r st HI Hr) as (Hresp & Hperm).
  cbv zeta. split; [exact Hresp|]. split; [|split].
  - unfold permission_rows. rewrite Hperm.
    now apply upsert_one_row.
  - intros Hhas. rewrite Hperm. apply has_permission_found in Hhas.
    destruct Hhas as (p & Hp). unfold permission_upsert. now rewrite Hp.
  - intros Hnot. rewrite Hperm. unfold permission_upsert.
    destruct (Prisma.findFirst (has_key (r_fromId r) (r_skillId r))
                (permissions st)) as [p|] eqn:E; [|reflexivity].
    exfalso. apply Hnot. apply has_permission_found. now exists p.
Qed.

Lemma accept_times_one_permission_witness :
  Inv requested_db
  /\ snd (accept_times 3 2 1 requested_db)
     = repeat (Sent (mkRequest 1 1 2 1 accepted 130)) 3
  /\ List.length (permission_rows (fst (accept_times 3 2 1 requested_db)) 1 1)
     = 1%nat.
Proof.
  split; [exact Inv_requested|].
  destruct (accept_times_one_permission 3 (mkRequest 1 1 2 1 pending 130)
              requested_db Inv_requested (or_introl eq_refl)
              ltac:(lia)) as (Hresp & Hone & _).
  split; [exact Hresp | exact Hone].
Defined.

(** * The stream gate *)

Lemma upsert_grants (u v : Z) (st : Db) :
  has_permission (permission_upsert u v st) u v.
Proof.
  unfold permission_upsert.
  destruct (Prisma.findFirst (has_key u v) (permissions st)) as [p|] eqn:E.
  - apply has_permission_found. now exists p.
  - exists (mkPermission (seq_permission st) u v). simpl.
    repeat split. apply in_or_app. right. now left.
Qed.

(** Past the two checks on the skill row and on the viewer, the answer is
    the file or its absence. *)
Lemma stream_authorized (v : Z) (s : Skill) (st : Db) :
  Inv st -> In s (skills st) ->
  s_ownerId s = v \/ has_permission st v (s_id s) ->
  stream v (s_id s) st
  = match read_file (s_videoPath s) (files st) with
    | None => Fail 404 "File missing"
    | Some bytes => Sent bytes
    end.
Proof.
  intros HI Hs Hauth. unfold stream. rewrite (find_skill st s HI Hs).
  destruct (s_ownerId s =? v) eqn:E; simpl; [reflexivity|].
  destruct Hauth as [Hown|Hperm].
  - apply Z.eqb_neq in E. contradiction.
  - apply has_permission_found in Hperm. destruct Hperm as (p & ->).
    reflexivity.
Qed.

Lemma authorized_on (v sid : Z) (s : Skill) (st : Db) :
  Inv st -> In s (skills st) -> s_id s = sid ->
  owns st v sid \/ has_permission st v sid ->
  s_ownerId s = v \/ has_permission st v (s_id s).
Proof.
  intros HI Hs Hid [(s' & Hs' & Hid' & Hown)|Hperm].
  - left. assert (s' = s) as <-; [|assumption].
    pose proof (find_skill st s HI Hs) as H1.
    pose proof (find_skill st s' HI Hs') as H2.
    rewrite Hid in H1. rewrite Hid' in H2. congruence.
  - right. now rewrite Hid.
Qed.

(** The cases of the stream handler past the check of the identifier. *)
Lemma stream_cases (v sid : Z) (st : Db) :
  Inv st ->
  (~ skill_exists st sid ->
   refuses (stream v sid st) 404 "Video not found" NotFound)
  /\ (skill_exists st sid -> ~ owns st v sid -> ~ has_permission st v sid ->
      refuses (stream v sid st) 403 "No permission" Forbidden)
  /\ (owns st v sid \/ has_permission st v sid -> media_missing st sid ->
      refuses (stream v sid st) 404 "File missing" NotFound)
  /\ (forall bytes : string,
        owns st v sid \/ has_permission st v sid ->
        media_stored st sid bytes ->
        stream v sid st = Sent bytes)
  /\ (forall (r : Request) (bytes : string),
        In r (requests st) -> r_fromId r = v -> r_skillId r = sid ->
        media_stored st sid bytes ->
        stream v sid (fst (accept (r_toId r) (r_id r) st)) = Sent bytes).
Proof.
  intros HI. split; [|split; [|split; [|split]]].
  - intros Hno. unfold refuses, stream.
    rewrite (no_skill_None st sid Hno). now split.
  - intros (s & Hs & Hid) Hnown Hnperm. subst sid.
    unfold refuses, stream. rewrite (find_skill st s HI Hs).
    assert (E : (s_ownerId s =? v) = false).
    { apply Z.eqb_neq. intros Hown. apply Hnown. now exists s. }
    rewrite E. simpl.
    destruct (Prisma.findFirst (has_key v (s_id s)) (permissions st))
      as [p|] eqn:Ep.
    + exfalso. apply Hnperm. apply has_permission_found. now exists p.
    + now split.
  - intros Hauth (s & Hs & Hid & Hfile).
    pose proof (authorized_on v sid s st HI Hs Hid Hauth) as Hauth'.
    subst sid. unfold refuses.
    rewrite (stream_authorized v s st HI Hs Hauth'), Hfile. now split.
  - intros bytes Hauth (s & Hs & Hid & Hfile).
    pose proof (authorized_on v sid s st HI Hs Hid Hauth) as Hauth'.
    subst sid.
    now rewrite (stream_authorized v s st HI Hs Hauth'), Hfile.
  - intros r bytes Hr Hf Hk (s & Hs & Hid & Hfile).
    destruct (accept_by_target r st HI Hr) as (b & a & _ & _ & Hacc).
    pose proof (Inv_accept (r_toId r) (r_id r) st HI) as HI1.
    rewrite Hacc in *. simpl fst in *.
    set (st0 := with_requests (b ++ with_status accepted r :: a)
                              (seq_request st) st) in *.
    destruct (permission_upsert_frame (r_fromId r) (r_skillId r) st0)
      as (_ & Hsk & _ & _ & Hfs).
    assert (Hs1 : In s (skills (permission_upsert (r_fromId r) (r_skillId r)
                                                  st0)))
      by (rewrite Hsk; exact Hs).
    assert (Hgrant : s_ownerId s = v
                     \/ has_permission
                          (permission_upsert (r_fromId r) (r_skillId r) st0)
                          v (s_id s)).
    { right. rewrite Hid, <- Hk, <- Hf. apply upsert_grants. }
    rewrite <- Hid.
    rewrite (stream_authorized v s _ HI1 Hs1 Hgrant), Hfs. simpl.
    now rewrite Hfile.
Qed.

(** C4, as the handler orders its checks, for an identifier of the
    column's type.  For a skill identifier [sid] that fits the [Int]
    column, streaming it as [v] fails with NotFound when no skill has that
    identifier; otherwise with Forbidden when [v] neither owns the skill nor
    holds a Permission row for it; otherwise with NotFound when the media
    file is not in the store; otherwise it returns the bytes of the file.
    So the owner of a skill whose file is stored streams it, a non-owner
    without a Permission row is refused, and once the target has accepted
    that non-owner's request the non-owner streams it. *)
Theorem stream_gate (v sid : Z) (st : Db) :
  Inv st -> Prisma.fits_int sid = true ->
  (~ skill_exists st sid ->
   refuses (getStream v sid st) 404 "Video not found" NotFound)
  /\ (skill_exists st sid -> ~ owns st v sid -> ~ has_permission st v sid ->
      refuses (getStream v sid st) 403 "No permission" Forbidden)
  /\ (owns st v sid \/ has_permission st v sid -> media_missing st sid ->
      refuses (getStream v sid st) 404 "File missing" NotFound)
  /\ (forall bytes : string,
        owns st v sid \/ has_permission st v sid ->
        media_stored st sid bytes ->
        getStream v sid st = Sent bytes)
  /\ (forall (r : Request) (bytes : string),
        In r (requests st) -> r_fromId r = v -> r_skillId r = sid ->
        media_stored st sid bytes ->
        getStream v sid (fst (accept (r_toId r) (r_id r) st)) = Sent bytes).
Proof.
  intros HI Hfit.
  pose proof (stream_cases v sid st HI) as (H1 & H2 & H3 & H4 & H5).
  rewrite (getStream_fits v sid st Hfit).
  split; [exact H1|]. split; [exact H2|]. split; [exact H3|].
  split; [exact H4|].
  intros r bytes Hr Hf Hk Hm.
  rewrite (getStream_fits v sid _ Hfit). now apply H5.
Qed.

Lemma stream_gate_witness :
  Inv requested_db
  /\ getStream 2 1 requested_db = Sent "bytes of 110-7.mp4"
  /\ refuses (getStream 1 1 requested_db) 403 "No permission" Forbidden
  /\ getStream 1 1 (fst (accept 2 1 requested_db)) = Sent "bytes of 110-7.mp4"
  /\ refuses (getStream 1 9 requested_db) 404 "Video not found" NotFound.
Proof.
  split; [exact Inv_requested|].
  pose proof (stream_gate 2 1 requested_db Inv_requested eq_refl)
    as (_ & _ & _ & Howner & _).
  pose proof (stream_gate 1 1 requested_db Inv_requested eq_refl)
    as (_ & Hstranger & _ & _ & Hafter).
  pose proof (stream_gate 1 9 requested_db Inv_requested eq_refl)
    as (Hnone & _).
  assert (Hstored : media_stored requested_db 1 "bytes of 110-7.mp4").
  { exists (mkSkill 1 "Cooking Basics" (Some "knife skills") "110-7.mp4" 2 110).
    split; [now left|]. split; reflexivity. }
  split; [|split; [|split]].
  - apply Howner; [|exact Hstored]. left.
    exists (mkSkill 1 "Cooking Basics" (Some "knife skills") "110-7.mp4" 2 110).
    split; [now left|]. split; reflexivity.
  - apply Hstranger.
    + exists (mkSkill 1 "Cooking Basics" (Some "knife skills") "110-7.mp4" 2 110).
      split; [now left | reflexivity].
    + intros (s & [<-|[<-|[]]] & Hid & Hown); simpl in *; lia.
    + intros (p & [] & _).
  - apply (Hafter (mkRequest 1 1 2 1 pending 130));
      [now left | reflexivity | reflexivity | exact Hstored].
  - apply Hnone. intros (s & [<-|[<-|[]]] & Hid); simpl in *; lia.
Defined.

(** C4, as it is worded, fails where its clauses overlap, and at an integer
    the identifier column cannot hold.  In the store whose media files are
    gone, the owner of skill 1 is refused although the owner is to stream
    always, and a stranger is answered Forbidden although the missing file
    is to give NotFound.  No skill has the identifier 2147483648, and a
    stream of it is not answered NotFound: the first query throws and
    nothing is sent. *)
Lemma stream_claim_cex :
  owns files_lost_db 2 1
  /\ ~ (exists bytes, getStream 2 1 files_lost_db = Sent bytes)
  /\ media_missing files_lost_db 1
  /\ outcome (getStream 3 1 files_lost_db) <> Some NotFound
  /\ ~ skill_exists files_lost_db 2147483648
  /\ getStream 3 2147483648 files_lost_db
     = Uncaught (Prisma.ValueOutOfRange "id")
  /\ outcome (getStream 3 2147483648 files_lost_db) <> Some NotFound.
Proof.
  split; [|split; [|split; [|split; [|split; [|split]]]]].
  - exists (mkSkill 1 "Cooking Basics" (Some "knife skills") "110-7.mp4" 2 110).
    split; [now left|]. split; reflexivity.
  - intros (bytes & H). vm_compute in H. discriminate.
  - exists (mkSkill 1 "Cooking Basics" (Some "knife skills") "110-7.mp4" 2 110).
    split; [now left|]. split; reflexivity.
  - vm_compute. discriminate.
  - intros (s & [<-|[<-|[]]] & Hid); simpl in Hid; discriminate.
  - reflexivity.
  - vm_compute. discriminate.
Qed.

(** * The matcher *)

Lemma starts_with_iff (needle hay : string) :
  Prisma.starts_with needle hay = true <->
  exists after, hay = String.append needle after.
Proof.
  revert hay. induction needle as [|a n IH]; intros hay; simpl.
  - split; [intros _; now exists hay | reflexivity].
  - destruct hay as [|b h].
    + split; [discriminate | intros (after & H); discriminate].
    + rewrite andb_true_iff, Ascii.eqb_eq, IH. split.
      * intros (-> & after & ->). now exists after.
      * intros (after & H). injection H as -> ->. split; [reflexivity|].
        now exists after.
Qed.

Lemma contains_iff (needle hay : string) :
  Prisma.contains needle hay = true <->
  exists before after,
    hay = String.append before (String.append needle after).
Proof.
  induction hay as [|c h IH]; simpl.
  - rewrite orb_false_r, starts_with_iff. split.
    + intros (after & H). now exists EmptyString, after.
    + intros (before & after & H). destruct before; [|discriminate].
      now exists after.
  - rewrite orb_true_iff, starts_with_iff, IH. split.
    + intros [(after & H)|(before & after & H)].
      * now exists EmptyString, after.
      * exists (String c before), after. simpl. now rewrite H.
    + intros (before & after & H). destruct before as [|c' before'].
      * left. now exists after.
      * right. simpl in H. injection H as -> ->. now exists before', after.
Qed.

Lemma like_any_run (rest text : string) :
  Prisma.like (String "%" rest) text
  = Prisma.like rest text
    || match text with
       | EmptyString => false
       | String _ text' => Prisma.like (String "%" rest) text'
       end.
Proof. destruct text; reflexivity. Qed.

Lemma like_percent (text : string) : Prisma.like "%" text = true.
Proof.
  induction text as [|c t IH]; [reflexivity|].
  rewrite like_any_run, IH. apply orb_true_r.
Qed.

Lemma like_literal (p c : ascii) (rest text : string) :
  special p = false ->
  Prisma.like (String p rest) (String c text)
  = Ascii.eqb p c && Prisma.like rest text.
Proof.
  unfold special. intros H.
  apply orb_false_elim in H. destruct H as [H Hb].
  apply orb_false_elim in H. destruct H as [Hp Hu].
  simpl. rewrite Hp, Hu, Hb. reflexivity.
Qed.

Lemma like_literal_empty (p : ascii) (rest : string) :
  special p = false -> Prisma.like (String p rest) EmptyString = false.
Proof.
  unfold special. intros H.
  apply orb_false_elim in H. destruct H as [H Hb].
  apply orb_false_elim in H. destruct H as [Hp Hu].
  simpl. rewrite Hp, Hu, Hb. reflexivity.
Qed.

(** For a value without special characters the pattern search is the plain
    substring search. *)
Lemma like_plain_prefix (value text : string) :
  plain value = true ->
  Prisma.like (String.append value "%") text = Prisma.starts_with value text.
Proof.
  revert text. induction value as [|p rest IH]; intros text Hp.
  - simpl String.append. rewrite like_percent. reflexivity.
  - simpl in Hp. apply andb_prop in Hp. destruct Hp as [Hs Hrest].
    apply negb_true_iff in Hs. simpl String.append.
    destruct text as [|c t].
    + now rewrite like_literal_empty.
    + rewrite (like_literal _ _ _ _ Hs), (IH t Hrest). reflexivity.
Qed.

Lemma like_plain_contains (value text : string) :
  plain value = true ->
  Prisma.like (String "%" (String.append value "%")) text
  = Prisma.contains value text.
Proof.
  intros Hp. induction text as [|c t IH].
  - rewrite like_any_run, (like_plain_prefix _ _ Hp). reflexivity.
  - rewrite like_any_run, (like_plain_prefix _ _ Hp), IH. reflexivity.
Qed.

Lemma special_lower (c : ascii) :
  special (Prisma.lower_ascii c) = special c.
Proof.
  destruct c as [[] [] [] [] [] [] [] []]; reflexivity.
Qed.

Lemma plain_lower (s : string) : plain (Prisma.lower s) = plain s.
Proof.
  induction s as [|c rest IH]; simpl; [reflexivity|].
  now rewrite special_lower, IH.
Qed.

Lemma lower_ascii_same (a b : ascii) :
  Prisma.lower_ascii a = Prisma.lower_ascii b <-> same_letter a b.
Proof.
  unfold Prisma.lower_ascii, same_letter.
  pose proof (nat_ascii_bounded a) as Ha.
  pose proof (nat_ascii_bounded b) as Hb.
  assert (Hinj : nat_of_ascii a = nat_of_ascii b -> a = b).
  { intros H. rewrite <- (ascii_nat_embedding a), <- (ascii_nat_embedding b).
    now rewrite H. }
  destruct ((65 <=? nat_of_ascii a) && (nat_of_ascii a <=? 90))%nat eqn:Ea;
    destruct ((65 <=? nat_of_ascii b) && (nat_of_ascii b <=? 90))%nat eqn:Eb;
    repeat match goal with
           | H : (_ && _)%bool = true |- _ =>
               apply andb_prop in H; destruct H
           | H : (_ && _)%bool = false |- _ => apply andb_false_iff in H
           | H : (_ <=? _)%nat = true |- _ => apply Nat.leb_le in H
           | H : (_ <=? _)%nat = false |- _ => apply Nat.leb_gt in H
           end.
  - split.
    + intros H3. apply (f_equal nat_of_ascii) in H3.
      rewrite !nat_ascii_embedding in H3 by lia.
      left. apply Hinj. lia.
    + intros [->|[[_ H3]|[_ H3]]]; [reflexivity | lia | lia].
  - split.
    + intros H3. right. left. split; [lia|]. rewrite <- H3.
      apply nat_ascii_embedding. lia.
    + intros [Heq|[[_ H3]|[Hu H3]]].
      * subst b. exfalso. destruct Eb as [E|E]; apply Nat.leb_gt in E; lia.
      * rewrite <- H3. apply ascii_nat_embedding.
      * exfalso. destruct Eb as [E|E]; apply Nat.leb_gt in E; lia.
  - split.
    + intros H3. right. right. split; [lia|]. rewrite H3.
      apply nat_ascii_embedding. lia.
    + intros [Heq|[[Hu H3]|[_ H3]]].
      * subst b. exfalso. destruct Ea as [E|E]; apply Nat.leb_gt in E; lia.
      * exfalso. destruct Ea as [E|E]; apply Nat.leb_gt in E; lia.
      * rewrite <- H3. symmetry. apply ascii_nat_embedding.
  - split.
    + intros ->. now left.
    + intros [->|[[Hu _]|[Hu _]]]; [reflexivity | exfalso | exfalso].
      * destruct Ea as [E|E]; apply Nat.leb_gt in E; lia.
      * destruct Eb as [E|E]; apply Nat.leb_gt in E; lia.
Qed.

Lemma lower_same (x y : string) :
  Prisma.lower x = Prisma.lower y <-> same_letters x y.
Proof.
  revert y. induction x as [|a x' IH]; intros [|b y']; simpl;
    try (split; [discriminate | contradiction]).
  - tauto.
  - rewrite <- IH, <- lower_ascii_same. split.
    + intros [= H1 H2]. now split.
    + intros [-> ->]. reflexivity.
Qed.

Lemma lower_append (x y : string) :
  Prisma.lower (String.append x y)
  = String.append (Prisma.lower x) (Prisma.lower y).
Proof.
  induction x as [|a x' IH]; simpl; [reflexivity | now rewrite IH].
Qed.

Lemma lower_split (hay before rest : string) :
  Prisma.lower hay = String.append before rest ->
  exists hay1 hay2,
    hay = String.append hay1 hay2
    /\ Prisma.lower hay1 = before /\ Prisma.lower hay2 = rest.
Proof.
  revert hay. induction before as [|b before' IH]; intros hay H.
  - exists EmptyString, hay. now repeat split.
  - destruct hay as [|c hay']; [discriminate|].
    simpl in H. injection H as Hc Hrest.
    destruct (IH hay' Hrest) as (h1 & h2 & -> & H1 & H2).
    exists (String c h1), h2. simpl. rewrite Hc, H1. now repeat split.
Qed.

Lemma contains_lower_iff (needle hay : string) :
  Prisma.contains (Prisma.lower needle) (Prisma.lower hay) = true <->
  contains_ignoring_case needle hay.
Proof.
  rewrite contains_iff. unfold contains_ignoring_case. split.
  - intros (before & after & H).
    destruct (lower_split _ _ _ H) as (h1 & h23 & -> & _ & H23).
    destruct (lower_split _ _ _ H23) as (h2 & h3 & -> & H2 & _).
    exists h1, h2, h3. split; [reflexivity|].
    apply lower_same. now symmetry.
  - intros (before & piece & after & -> & Hsame).
    apply lower_same in Hsame.
    exists (Prisma.lower before), (Prisma.lower after).
    now rewrite !lower_append, Hsame.
Qed.

Lemma contains_insensitive_iff (needle hay : string) :
  plain needle = true ->
  (Prisma.contains_insensitive needle hay = true <->
   contains_ignoring_case needle hay).
Proof.
  intros Hp. unfold Prisma.contains_insensitive.
  rewrite like_plain_contains by now rewrite plain_lower.
  apply contains_lower_iff.
Qed.

Lemma newest_first_strongly {A : Type} (key : A -> Z) (l : list A) :
  StronglySorted (Prisma.newest_first key) (Prisma.orderBy_desc key l).
Proof.
  apply Sorted_StronglySorted; [|apply orderBy_desc_sorted].
  intros x y z. unfold Prisma.newest_first. lia.
Qed.






(** * Resolving a request again, and what Decline leaves alone *)

(** C6. Neither Accept nor Decline looks at the status a request has.  For a
    request that is already accepted or declined, a further Accept or
    Decline by its target succeeds and the row, returned and stored, has
    the new status and its other fields as before.  Accept runs the
    Permission upsert again: afterwards there is exactly one row for the
    sender and the skill; the table is unchanged when the row was there, and
    has gained that one row when it was not.  Decline leaves the table as
    it was. *)
Theorem resolved_request_resolved_again (r : Request) (st : Db) :
  Inv st -> In r (requests st) ->
  r_status r = accepted \/ r_status r = declined ->
  (snd (accept (r_toId r) (r_id r) st)
   = Sent (mkRequest (r_id r) (r_fromId r) (r_toId r) (r_skillId r)
                     accepted (r_createdAt r))
   /\ Prisma.findUnique r_id (r_id r)
        (requests (fst (accept (r_toId r) (r_id r) st)))
      = Some (mkRequest (r_id r) (r_fromId r) (r_toId r) (r_skillId r)
                        accepted (r_createdAt r))
   /\ List.length (permission_rows (fst (accept (r_toId r) (r_id r) st))
                                   (r_fromId r) (r_skillId r)) = 1%nat
   /\ (has_permission st (r_fromId r) (r_skillId r) ->
       permissions (fst (accept (r_toId r) (r_id r) st)) = permissions st)
   /\ (~ has_permission st (r_fromId r) (r_skillId r) ->
       permissions (fst (accept (r_toId r) (r_id r) st))
       = permissions st
         ++ [mkPermission (seq_permission st) (r_fromId r) (r_skillId r)]))
  /\ (snd (decline (r_toId r) (r_id r) st)
      = Sent (mkRequest (r_id r) (r_fromId r) (r_toId r) (r_skillId r)
                        declined (r_createdAt r))
      /\ Prisma.findUnique r_id (r_id r)
           (requests (fst (decline (r_toId r) (r_id r) st)))
         = Some (mkRequest (r_id r) (r_fromId r) (r_toId r) (r_skillId r)
                           declined (r_createdAt r))
      /\ permissions (fst (decline (r_toId r) (r_id r) st))
         = permissions st).
Proof.
  intros HI Hr _.
  destruct (resolve_by_target r st HI Hr)
    as (before & after & Hrows & Hb & -> & ->).
  simpl fst. simpl snd.
  destruct (permission_upsert_frame (r_fromId r) (r_skillId r)
              (with_requests (before ++ with_status accepted r :: after)
                             (seq_request st) st))
    as (_ & _ & _ & -> & _).
  rewrite upsert_with_requests. simpl.
  split; [split; [|split; [|split; [|split]]] | split; [|split]];
    try reflexivity.
  - now apply (findUnique_middle r_id (r_id r) before after
                 (with_status accepted r)).
  - now apply upsert_one_row.
  - intros Hhas. apply has_permission_found in Hhas.
    destruct Hhas as (p & Hp). unfold permission_upsert. now rewrite Hp.
  - intros Hnot. unfold permission_upsert.
    destruct (Prisma.findFirst (has_key (r_fromId r) (r_skillId r))
                (permissions st)) as [p|] eqn:E; [|reflexivity].
    exfalso. apply Hnot. apply has_permission_found. now exists p.
  - now apply (findUnique_middle r_id (r_id r) before after
                 (with_status declined r)).
Qed.

Lemma resolved_request_resolved_again_witness :
  Inv declined_db
  /\ snd (accept 2 1 declined_db) = Sent (mkRequest 1 1 2 1 accepted 130)
  /\ permissions declined_db = []
  /\ permissions (fst (accept 2 1 declined_db)) = [mkPermission 1 1 1]
  /\ snd (decline 2 1 granted_db) = Sent (mkRequest 1 1 2 1 declined 130)
  /\ permissions (fst (accept 2 1 granted_db)) = permissions granted_db.
Proof.
  assert (HI : Inv declined_db) by apply Inv_run, Inv_requested.
  split; [exact HI|].
  destruct (resolved_request_resolved_again
              (mkRequest 1 1 2 1 declined 130) declined_db HI
              (or_introl eq_refl) (or_intror eq_refl))
    as ((Ha & _ & _ & _ & Hnew) & _).
  destruct (resolved_request_resolved_again
              (mkRequest 1 1 2 1 accepted 130) granted_db Inv_granted
              (or_introl eq_refl) (or_introl eq_refl))
    as ((_ & _ & _ & Hp & _) & (Hd & _)).
  split; [exact Ha|]. split; [reflexivity|]. split.
  - apply Hnew. intros (p & [] & _).
  - split; [exact Hd|]. apply Hp.
    exists (mkPermission 1 1 1). split; [now left|]. split; reflexivity.
Defined.

(** C7. A Decline that succeeds leaves the Permission table, and every other
    table and file, as they were; in the Request table it rewrites one row,
    the declined request, of which only the status changes. *)
Theorem decline_frame (u id : Z) (st st' : Db) (r' : Request) :
  decline u id st = (st', Sent r') ->
  permissions st' = permissions st
  /\ seq_permission st' = seq_permission st
  /\ users st' = users st /\ skills st' = skills st /\ wants st' = wants st
  /\ files st' = files st
  /\ exists (r : Request) (before after : list Request),
       requests st = before ++ r :: after
       /\ requests st' = before ++ r' :: after
       /\ r_id r = id /\ r_toId r = u
       /\ r_status r' = declined
       /\ r_id r' = r_id r /\ r_fromId r' = r_fromId r
       /\ r_toId r' = r_toId r /\ r_skillId r' = r_skillId r
       /\ r_createdAt r' = r_createdAt r.
Proof.
  unfold decline. intros H.
  destruct (Prisma.findUnique r_id id (requests st)) as [r|] eqn:Hf;
    [|discriminate].
  destruct (r_toId r =? u) eqn:Hu; simpl in H; [|discriminate].
  destruct (update_found r_id id _ _ Hf)
    as (before & after & Hrows & _ & Hupd).
  rewrite Hupd in H. injection H as <- <-. simpl.
  repeat split.
  exists r, before, after. apply findUnique_Some in Hf.
  apply Z.eqb_eq in Hu. simpl. now repeat split.
Qed.

Lemma decline_frame_witness :
  decline 2 1 granted_db
  = (with_requests [mkRequest 1 1 2 1 declined 130] 2 granted_db,
     Sent (mkRequest 1 1 2 1 declined 130))
  /\ permissions (with_requests [mkRequest 1 1 2 1 declined 130] 2 granted_db)
     = [mkPermission 1 1 1].
Proof.
  split; [reflexivity|].
  destruct (decline_frame 2 1 granted_db
              (with_requests [mkRequest 1 1 2 1 declined 130] 2 granted_db)
              (mkRequest 1 1 2 1 declined 130) eq_refl) as (Hp & _).
  rewrite Hp. reflexivity.
Defined.

(** * Creating skills and wants *)

(** C8 fails as worded: a title that is the empty string is stored, for a
    Want and for a Skill alike, and no error is reported. *)
Lemma empty_title_cex :
  createWant 100 1 (Some "") None seed_db
  = (with_wants [mkWant 1 "" None 1 100] 2 seed_db,
     Sent (mkWant 1 "" None 1 100))
  /\ outcome (snd (createWant 100 1 (Some "") None seed_db))
     <> Some ValidationError
  /\ skills (fst (createSkill 100 1 (Some "") None
                    (Some ("100-1.mp4", "bytes")) seed_db))
     = [mkSkill 1 "" None "100-1.mp4" 1 100]
  /\ outcome (snd (createSkill 100 1 (Some "") None
                     (Some ("100-1.mp4", "bytes")) seed_db))
     <> Some ValidationError.
Proof.
  split; [reflexivity|]. split; [vm_compute; discriminate|].
  split; [reflexivity|]. vm_compute. discriminate.
Qed.

(** C8, as the handlers check their input.  Creating a Skill requires an
    uploaded video and a title that is present: without the video, or
    without the title, the call fails with ValidationError and stores no
    Skill.  A title that is present is not inspected further: with it (and,
    for a Skill, the video) the call succeeds and stores the record, also
    when the title is empty.  Creating a Want without a title stores no
    Want. *)
Theorem creation_requirements (now user : Z) (title description : option string)
  (file : option (string * string)) (st : Db) :
  (file = None ->
   rejects (createSkill now user title description file st) st
           400 "Video required" ValidationError)
  /\ (title = None ->
      outcome (snd (createSkill now user title description file st))
      = Some ValidationError
      /\ skills (fst (createSkill now user title description file st))
         = skills st)
  /\ (forall (t : string) (f : string * string),
        title = Some t -> file = Some f ->
        let row := mkSkill (seq_skill st) t description (fst f) user now in
        snd (createSkill now user title description file st) = Sent row
        /\ skills (fst (createSkill now user title description file st))
           = skills st ++ [row])
  /\ (forall t : string,
        title = Some t ->
        let row := mkWant (seq_want st) t description user now in
        snd (createWant now user title description st) = Sent row
        /\ wants (fst (createWant now user title description st))
           = wants st ++ [row])
  /\ (title = None ->
      wants (fst (createWant now user title description st)) = wants st).
Proof.
  split; [|split; [|split; [|split]]].
  - intros ->. unfold rejects, refuses. simpl. now repeat split.
  - intros ->. destruct file as [[name content]|]; simpl; now split.
  - intros t [name content] -> ->. simpl. now split.
  - intros t ->. simpl. now split.
  - intros ->. reflexivity.
Qed.

Lemma creation_requirements_witness :
  rejects (createSkill 100 1 (Some "Knots") None None seed_db) seed_db
          400 "Video required" ValidationError
  /\ snd (createWant 100 1 (Some "") None seed_db)
     = Sent (mkWant 1 "" None 1 100)
  /\ wants (fst (createWant 100 1 None None seed_db)) = [].
Proof.
  pose proof (creation_requirements 100 1 (Some "Knots") None None seed_db)
    as (Hvideo & _).
  pose proof (creation_requirements 100 1 (Some "") None None seed_db)
    as (_ & _ & _ & Hwant & _).
  pose proof (creation_requirements 100 1 None None None seed_db)
    as (_ & _ & _ & _ & Hnone).
  split; [exact (Hvideo eq_refl)|].
  split; [exact (proj1 (Hwant "" eq_refl)) | exact (Hnone eq_refl)].
Defined.

(** * Listing requests *)

Lemma is_outgoing_iff (type : option QueryValue) :
  is_outgoing type = true <-> type = Some (QString "outgoing").
Proof.
  unfold is_outgoing. destruct type as [[s|items|fields]|];
    try (split; discriminate).
  rewrite String.eqb_eq. split; [now intros -> | now intros [= ->]].
Qed.

Lemma party_info_fields (st : Db) (uid : Z) (p : PartyInfo) :
  party_info st uid = Some p ->
  pi_id p = uid
  /\ exists a, In a (users st) /\ u_id a = uid
               /\ pi_name p = u_name a /\ pi_email p = u_email a.
Proof.
  unfold party_info.
  destruct (Prisma.findUnique u_id uid (users st)) as [a|] eqn:E;
    [|discriminate].
  apply findUnique_Some in E. destruct E as [Ha Hid].
  intros [= <-]. simpl. split; [assumption|]. exists a. now repeat split.
Qed.

Lemma requests_of_views (st : Db) (rows : list Request) :
  map rv_request (map (request_view st) rows) = rows.
Proof. rewrite map_map. simpl. apply map_id. Qed.

(** C9. The list of requests is the caller's outgoing requests (those with
    [fromId] the caller) only when [type] is the string ["outgoing"]; for
    any other value, or none, it is the incoming ones (those with [toId] the
    caller).  The rows come newest first, each once, and each entry carries
    its row, the summaries of the accounts of its sender and target (also
    under [fromUser] and [toUser]) and the skill it refers to. *)
Theorem listRequests_direction (u : Z) (type : option QueryValue) (st : Db) :
  exists entries : list RequestView,
    listRequests u type st = Sent entries
    /\ StronglySorted (Prisma.newest_first r_createdAt)
                      (map rv_request entries)
    /\ (type = Some (QString "outgoing") ->
        Permutation (map rv_request entries)
                    (filter (fun r => r_fromId r =? u) (requests st))
        /\ forall r, In r (map rv_request entries)
                     <-> In r (requests st) /\ r_fromId r = u)
    /\ (type <> Some (QString "outgoing") ->
        Permutation (map rv_request entries)
                    (filter (fun r => r_toId r =? u) (requests st))
        /\ forall r, In r (map rv_request entries)
                     <-> In r (requests st) /\ r_toId r = u)
    /\ (forall e, In e entries ->
          rv_fromUser e = rv_from e /\ rv_toUser e = rv_to e
          /\ (forall p, rv_from e = Some p ->
                pi_id p = r_fromId (rv_request e)
                /\ exists a, In a (users st) /\ u_id a = pi_id p
                             /\ pi_name p = u_name a
                             /\ pi_email p = u_email a)
          /\ (forall p, rv_to e = Some p ->
                pi_id p = r_toId (rv_request e)
                /\ exists a, In a (users st) /\ u_id a = pi_id p
                             /\ pi_name p = u_name a
                             /\ pi_email p = u_email a)
          /\ (forall s, rv_skill e = Some s ->
                In s (skills st) /\ s_id s = r_skillId (rv_request e))).
Proof.
  unfold listRequests, Prisma.findMany.
  assert (Hentry : forall rows e, In e (map (request_view st) rows) ->
            rv_fromUser e = rv_from e /\ rv_toUser e = rv_to e
            /\ (forall p, rv_from e = Some p ->
                  pi_id p = r_fromId (rv_request e)
                  /\ exists a, In a (users st) /\ u_id a = pi_id p
                               /\ pi_name p = u_name a
                               /\ pi_email p = u_email a)
            /\ (forall p, rv_to e = Some p ->
                  pi_id p = r_toId (rv_request e)
                  /\ exists a, In a (users st) /\ u_id a = pi_id p
                               /\ pi_name p = u_name a
                               /\ pi_email p = u_email a)
            /\ (forall s, rv_skill e = Some s ->
                  In s (skills st) /\ s_id s = r_skillId (rv_request e))).
  { intros rows e He. apply in_map_iff in He. destruct He as (r & <- & _).
    simpl. split; [reflexivity|]. split; [reflexivity|].
    split; [|split].
    - intros p Hp. destruct (party_info_fields _ _ _ Hp) as (Hid & a & Ha).
      split; [assumption|]. exists a. now rewrite Hid.
    - intros p Hp. destruct (party_info_fields _ _ _ Hp) as (Hid & a & Ha).
      split; [assumption|]. exists a. now rewrite Hid.
    - intros s Hs. now apply findUnique_Some in Hs. }
  destruct (is_outgoing type) eqn:E.
  - apply is_outgoing_iff in E.
    eexists. split; [reflexivity|]. rewrite requests_of_views.
    split; [apply newest_first_strongly|].
    split; [|split; [intros Hne; contradiction | apply Hentry]].
    intros _. split.
    + symmetry. apply orderBy_desc_perm.
    + intros r. now rewrite orderBy_desc_In, filter_In, Z.eqb_eq.
  - assert (Hne : type <> Some (QString "outgoing")).
    { intros H. apply is_outgoing_iff in H. congruence. }
    eexists. split; [reflexivity|]. rewrite requests_of_views.
    split; [apply newest_first_strongly|].
    split; [intros H; contradiction|]. split; [|apply Hentry].
    intros _. split.
    + symmetry. apply orderBy_desc_perm.
    + intros r. now rewrite orderBy_desc_In, filter_In, Z.eqb_eq.
Qed.

Lemma listRequests_direction_witness :
  exists entries : list RequestView,
    listRequests 2 (Some (QString "Outgoing")) requested_db = Sent entries
    /\ In (mkRequest 1 1 2 1 pending 130) (map rv_request entries).
Proof.
  destruct (listRequests_direction 2 (Some (QString "Outgoing")) requested_db)
    as (entries & Hl & _ & _ & Hin & _).
  exists entries. split; [exact Hl|].
  apply (Hin ltac:(discriminate)). split; [now left | reflexivity].
Defined.

(** * Requests by a user who already holds the permission *)

Lemma createRequest_reads_no_permission (now u sid : Z)
  (perms : list Permission) (n : Z) (st : Db) :
  createRequest now u sid (with_permissions perms n st)
  = (with_permissions perms n (fst (createRequest now u sid st)),
     snd (createRequest now u sid st)).
Proof.
  unfold createRequest. simpl.
  destruct (Prisma.findUnique s_id sid (skills st)) as [video|];
    [|reflexivity].
  destruct (s_ownerId video =? u); [reflexivity|].
  destruct (Prisma.findFirst _ (requests st)); reflexivity.
Qed.

(** C10. Creating a request does not look at the Permission table.  A user
    who holds a Permission row for a skill of somebody else, and has no
    pending request for it, gets a new pending request all the same,
    although the stream gate already lets that user through; and whatever
    the Permission table holds, the answer and the request stored are the
    same. *)
Theorem createRequest_ignores_permission (now u sid : Z) (st : Db) :
  Inv st -> has_permission st u sid -> skill_exists st sid ->
  ~ owns st u sid -> ~ has_pending st u sid ->
  (exists r owner,
     createRequest now u sid st
     = (with_requests (requests st ++ [r]) (seq_request st + 1) st, Sent r)
     /\ r_status r = pending /\ r_fromId r = u /\ r_skillId r = sid
     /\ r_toId r = owner /\ owns st owner sid)
  /\ (forall bytes : string,
        media_stored st sid bytes -> stream u sid st = Sent bytes)
  /\ (forall (perms : list Permission) (n : Z),
        createRequest now u sid (with_permissions perms n st)
        = (with_permissions perms n (fst (createRequest now u sid st)),
           snd (createRequest now u sid st))).
Proof.
  intros HI Hperm (s & Hs & Hid) Hnown Hnone. subst sid.
  assert (Hown : s_ownerId s <> u).
  { intros Hown. apply Hnown. now exists s. }
  split; [|split].
  - exists (mkRequest (seq_request st) u (s_ownerId s) (s_id s) pending now),
           (s_ownerId s).
    split; [now apply createRequest_succeeds|]. simpl.
    repeat split. now exists s.
  - intros bytes (s' & Hs' & Hid' & Hfile).
    assert (s' = s) as ->.
    { pose proof (find_skill st s HI Hs) as H1.
      pose proof (find_skill st s' HI Hs') as H2.
      rewrite Hid' in H2. congruence. }
    rewrite (stream_authorized u s st HI Hs (or_intror Hperm)).
    now rewrite Hfile.
  - intros perms n. apply createRequest_reads_no_permission.
Qed.

Lemma createRequest_ignores_permission_witness :
  Inv granted_db
  /\ has_permission granted_db 1 1
  /\ stream 1 1 granted_db = Sent "bytes of 110-7.mp4"
  /\ exists r,
       snd (createRequest 150 1 1 granted_db) = Sent r
       /\ r_status r = pending.
Proof.
  assert (Hperm : has_permission granted_db 1 1).
  { exists (mkPermission 1 1 1). split; [now left|]. split; reflexivity. }
  split; [exact Inv_granted|]. split; [exact Hperm|].
  assert (Hskill : skill_exists granted_db 1).
  { exists (mkSkill 1 "Cooking Basics" (Some "knife skills") "110-7.mp4" 2 110).
    split; [now left | reflexivity]. }
  assert (Hnown : ~ owns granted_db 1 1).
  { intros (s & [<-|[<-|[]]] & Hid & Hown); simpl in *; lia. }
  assert (Hnone : ~ has_pending granted_db 1 1).
  { intros (r & [<-|[]] & _ & _ & Hp). simpl in Hp. discriminate. }
  destruct (createRequest_ignores_permission 150 1 1 granted_db Inv_granted
              Hperm Hskill Hnown Hnone)
    as ((r & owner & Hc & Hp & _) & Hstream & _).
  split.
  - apply Hstream.
    exists (mkSkill 1 "Cooking Basics" (Some "knife skills") "110-7.mp4" 2 110).
    split; [now left|]. split; reflexivity.
  - exists r. rewrite Hc. split; [reflexivity | exact Hp].
Defined.

(** The empty store is consistent, hence so is every store a run of calls
    builds from nothing. *)
Lemma Inv_empty : Inv empty_db.
Proof.
  constructor; simpl; try constructor; intros; contradiction.
Qed.

Lemma Inv_reachable (calls : list Call) : Inv (run calls empty_db).
Proof. apply Inv_run, Inv_empty. Qed.

(** * The scenario of the specification *)

Example guitar_matches :
  Prisma.contains_insensitive "guitar" "Guitar Lessons for Beginners" = true.
Proof. reflexivity. Qed.

Example own_skill_not_matched :
  matches 1 (run [CreateWant 125 1 (Some "GUITAR") None] catalog_db)
  = Sent [skill_view catalog_db
            (mkSkill 1 "Cooking Basics" (Some "knife skills") "110-7.mp4"
                     2 110)].
Proof. reflexivity. Qed.

Example own_skill_not_requested :
  snd (createRequest 130 2 1 catalog_db)
  = Fail 400 "Cannot request your own video".
Proof. reflexivity. Qed.

Example scenario :
  snd (createRequest 130 1 1 catalog_db)
  = Sent (mkRequest 1 1 2 1 pending 130)
  /\ snd (accept 2 1 requested_db) = Sent (mkRequest 1 1 2 1 accepted 130)
  /\ permissions granted_db = [mkPermission 1 1 1]
  /\ stream 1 1 granted_db = Sent "bytes of 110-7.mp4"
  /\ stream 3 1 granted_db = Fail 403 "No permission".
Proof. repeat split. Qed.

(** * The auth middleware *)

Lemma split_spaces_cons (w rest : string) :
  has_space w = false ->
  split_spaces (String.append w (String " " rest)) = w :: split_spaces rest.
Proof.
  induction w as [|c w' IH]; simpl; intros Hw; [reflexivity|].
  apply orb_false_elim in Hw. destruct Hw as [Hc Hw'].
  rewrite Hc, (IH Hw'). reflexivity.
Qed.

Lemma split_spaces_word (w : string) :
  has_space w = false -> split_spaces w = [w].
Proof.
  induction w as [|c w' IH]; simpl; intros Hw; [reflexivity|].
  apply orb_false_elim in Hw. destruct Hw as [Hc Hw'].
  rewrite Hc, (IH Hw'). reflexivity.
Qed.

Lemma header_token_two_words (w t : string) :
  has_space w = false -> has_space t = false -> t <> EmptyString ->
  header_token (Some (String.append w (String " " t))) = Some t.
Proof.
  intros Hw Ht Hne. unfold header_token.
  rewrite (split_spaces_cons w t Hw), (split_spaces_word t Ht). simpl.
  destruct t; [contradiction | reflexivity].
Qed.

Lemma header_token_one_word (h : string) :
  has_space h = false -> header_token (Some h) = None.
Proof.
  intros Hh. unfold header_token. now rewrite (split_spaces_word h Hh).
Qed.

Lemma header_token_not_empty (authorization : option string) (t : string) :
  header_token authorization = Some t -> t <> EmptyString.
Proof.
  unfold header_token. destruct authorization as [h|]; [|discriminate].
  destruct (nth_error (split_spaces h) 1) as [[|c t']|]; try discriminate.
  intros [= <-]. discriminate.
Qed.

(** X1. The middleware lets a call through only as the user of a token that
    [jwt.verify] accepted: the second word of the Authorization header when
    there is one, else the [token] query parameter. *)
Theorem auth_pass_sound (jwt_verify : string -> option Z)
  (authorization : option string) (qtoken : option QueryValue) (user : Z) :
  auth jwt_verify authorization qtoken = Pass user ->
  exists token,
    token <> EmptyString /\ jwt_verify token = Some user
    /\ (header_token authorization = Some token
        \/ (header_token authorization = None
            /\ qtoken = Some (QString token))).
Proof.
  unfold auth, request_token. intros H.
  destruct (header_token authorization) as [t|] eqn:Hh.
  - destruct (jwt_verify t) as [id|] eqn:Hv; [|discriminate].
    injection H as <-. exists t.
    split; [now apply (header_token_not_empty authorization)|].
    split; [assumption | now left].
  - destruct qtoken as [[t|items|fields]|]; try discriminate.
    destruct t as [|c t']; [discriminate|].
    destruct (jwt_verify (String c t')) as [id|] eqn:Hv; [|discriminate].
    injection H as <-. exists (String c t').
    split; [discriminate|]. split; [assumption|]. now right.
Qed.

Lemma auth_pass_sound_witness :
  auth demo_verify (Some "Bearer header.one.sig") None = Pass 1
  /\ exists token, demo_verify token = Some 1.
Proof.
  split; [reflexivity|].
  destruct (auth_pass_sound demo_verify (Some "Bearer header.one.sig") None 1
              eq_refl) as (token & _ & Hv & _).
  now exists token.
Defined.

(** X2. A header of two words carries its second word as the token,
    whatever the first word is and whatever the query string holds: the
    scheme is not compared with "Bearer", and the header wins over the query
    parameter. *)
Theorem auth_header_second_word (jwt_verify : string -> option Z)
  (scheme token : string) (qtoken : option QueryValue) :
  has_space scheme = false -> has_space token = false ->
  token <> EmptyString ->
  auth jwt_verify (Some (String.append scheme (String " " token))) qtoken
  = match jwt_verify token with
    | Some user => Pass user
    | None => Stop 401 "Invalid token"
    end.
Proof.
  intros Hs Ht Hne. unfold auth, request_token.
  now rewrite (header_token_two_words scheme token Hs Ht Hne).
Qed.

Lemma auth_header_second_word_witness :
  auth demo_verify (Some "Basic header.one.sig")
       (Some (QString "header.other.sig")) = Pass 1.
Proof.
  exact (auth_header_second_word demo_verify "Basic" "header.one.sig"
           (Some (QString "header.other.sig")) eq_refl eq_refl
           ltac:(discriminate)).
Defined.

(** X3. Without a header, or with a header of a single word, the query
    parameter decides: none or an empty one gives 401 "Unauthorized", a
    string is verified, and a repeated or bracketed parameter gives 401
    "Invalid token". *)
Theorem auth_query_fallback (jwt_verify : string -> option Z)
  (authorization : option string) (qtoken : option QueryValue) :
  authorization = None
  \/ (exists h, authorization = Some h /\ has_space h = false) ->
  (qtoken = None \/ qtoken = Some (QString EmptyString) ->
   auth jwt_verify authorization qtoken = Stop 401 "Unauthorized")
  /\ (forall token, token <> EmptyString -> qtoken = Some (QString token) ->
      auth jwt_verify authorization qtoken
      = match jwt_verify token with
        | Some user => Pass user
        | None => Stop 401 "Invalid token"
        end)
  /\ ((exists items, qtoken = Some (QArray items))
      \/ (exists fields, qtoken = Some (QObject fields)) ->
      auth jwt_verify authorization qtoken = Stop 401 "Invalid token").
Proof.
  intros Hh.
  assert (Hnone : header_token authorization = None).
  { destruct Hh as [->|(h & -> & Hsp)]; [reflexivity|].
    now apply header_token_one_word. }
  unfold auth, request_token. rewrite Hnone. split; [|split].
  - intros [->| ->]; reflexivity.
  - intros token Hne ->. destruct token; [contradiction | reflexivity].
  - intros [(items & ->)|(fields & ->)]; reflexivity.
Qed.

Lemma auth_query_fallback_witness :
  auth demo_verify (Some "header.one.sig") None = Stop 401 "Unauthorized"
  /\ auth demo_verify None (Some (QString "header.one.sig")) = Pass 1
  /\ auth demo_verify None (Some (QArray ["header.one.sig"]))
     = Stop 401 "Invalid token".
Proof.
  pose proof (auth_query_fallback demo_verify (Some "header.one.sig") None
                (or_intror (ex_intro _ "header.one.sig" (conj eq_refl eq_refl))))
    as (H1 & _ & _).
  pose proof (auth_query_fallback demo_verify None
                (Some (QString "header.one.sig")) (or_introl eq_refl))
    as (_ & H2 & _).
  pose proof (auth_query_fallback demo_verify None
                (Some (QArray ["header.one.sig"])) (or_introl eq_refl))
    as (_ & _ & H3).
  split; [exact (H1 (or_introl eq_refl))|].
  split; [exact (H2 "header.one.sig" ltac:(discriminate) eq_refl)|].
  apply H3. left. now exists ["header.one.sig"].
Defined.

(** * Accounts *)

Lemma find_email_None (email : string) (rows : list User) :
  Prisma.findFirst (fun u => String.eqb (u_email u) email) rows = None <->
  ~ In email (map u_email rows).
Proof.
  unfold Prisma.findFirst.
  induction rows as [|u rest IH]; simpl; [tauto|].
  destruct (String.eqb (u_email u) email) eqn:E.
  - apply String.eqb_eq in E. split; [discriminate | tauto].
  - apply String.eqb_neq in E. rewrite IH. tauto.
Qed.

Lemma find_email_Some (email : string) (rows : list User) (u : User) :
  Prisma.findFirst (fun u => String.eqb (u_email u) email) rows = Some u ->
  In u rows /\ u_email u = email.
Proof.
  unfold Prisma.findFirst. intros H. apply find_some in H.
  destruct H as [Hin He]. apply String.eqb_eq in He. now split.
Qed.

Lemma find_email_In (rows : list User) (u : User) :
  NoDup (map u_email rows) -> In u rows ->
  Prisma.findFirst (fun x => String.eqb (u_email x) (u_email u)) rows = Some u.
Proof.
  unfold Prisma.findFirst.
  induction rows as [|x rest IH]; simpl; intros Hnd Hin; [contradiction|].
  apply NoDup_cons_iff in Hnd. destruct Hnd as [Hnew Hrest].
  destruct Hin as [->|Hin].
  - now rewrite String.eqb_refl.
  - destruct (String.eqb (u_email x) (u_email u)) eqn:E.
    + apply String.eqb_eq in E. exfalso. apply Hnew. rewrite E.
      now apply in_map.
    + now apply IH.
Qed.

Lemma email_registered_map (st : Db) (email : string) :
  email_registered st email <-> In email (map u_email (users st)).
Proof.
  unfold email_registered. rewrite in_map_iff. split.
  - intros (u & Hu & He). now exists u.
  - intros (u & He & Hu). now exists u.
Qed.

(** X4. A registration is refused with 400 exactly when name, email or
    password is absent or empty; with 409 exactly when those are given and
    the email is that of a stored account (compared as written); and with
    500 exactly when those are given, the email is new and the age does not
    fit the [Int] column.  A refused registration changes nothing.  Any
    other registration is answered 201 with the new identifier, name and
    email, and appends one account holding the hash, not the password. *)
Theorem register_refusals (hashed : string) (body : Registration)
  (a : Accounts) :
  (snd (register hashed body a)
     = Refused 400 "name, email and password are required"
   <-> truthy (reg_name body) = None \/ truthy (reg_email body) = None
       \/ truthy (reg_password body) = None)
  /\ (snd (register hashed body a) = Refused 409 "Email already registered"
      <-> truthy (reg_name body) <> None /\ truthy (reg_password body) <> None
          /\ exists email, truthy (reg_email body) = Some email
                           /\ email_registered (store a) email)
  /\ (snd (register hashed body a) = Refused 500 "Internal server error"
      <-> truthy (reg_name body) <> None /\ truthy (reg_password body) <> None
          /\ (exists email, truthy (reg_email body) = Some email
                            /\ ~ email_registered (store a) email)
          /\ Prisma.fits_int (age_number (reg_age body)) = false)
  /\ (forall status error,
        snd (register hashed body a) = Refused status error ->
        fst (register hashed body a) = a)
  /\ (forall status info,
        snd (register hashed body a) = Replied status info ->
        status = 201
        /\ Prisma.fits_int (age_number (reg_age body)) = true
        /\ exists user,
             users (store (fst (register hashed body a)))
             = users (store a) ++ [user]
             /\ u_id user = seq_user a
             /\ truthy (reg_name body) = Some (u_name user)
             /\ truthy (reg_email body) = Some (u_email user)
             /\ u_password user = hashed
             /\ u_age user = age_number (reg_age body)
             /\ info = mkPartyInfo (seq_user a) (u_name user) (u_email user)
             /\ ~ email_registered (store a) (u_email user)).
Proof.
  unfold register, user_create, Prisma.checked_int.
  destruct (truthy (reg_name body)) as [name|];
    destruct (truthy (reg_email body)) as [email|];
    destruct (truthy (reg_password body)) as [password|];
    try solve
      [ split; [split; [intros _; tauto | reflexivity]|];
        split; [split; [discriminate
                       | intros (H1 & H2 & e & H3 & _); congruence]|];
        split; [split; [discriminate
                       | intros (H1 & H2 & (e & H3 & _) & _); congruence]|];
        split; [reflexivity | discriminate] ].
  destruct (Prisma.findFirst _ (users (store a))) as [u|] eqn:E.
  - apply find_email_Some in E. destruct E as [Hu He]. simpl.
    split; [split; [discriminate | intros [H|[H|H]]; discriminate]|].
    split; [split; [intros _|reflexivity]|].
    { split; [discriminate|]. split; [discriminate|].
      exists email. split; [reflexivity | now exists u]. }
    split; [split; [discriminate|]|].
    { intros (_ & _ & (e & [= <-] & Hno) & _). exfalso. apply Hno.
      now exists u. }
    split; [reflexivity | discriminate].
  - apply find_email_None in E. rewrite <- email_registered_map in E.
    destruct (Prisma.fits_int (age_number (reg_age body))) eqn:Eage; simpl.
    + split; [split; [discriminate | intros [H|[H|H]]; discriminate]|].
      split; [split; [discriminate|]|].
      { intros (_ & _ & e & [= <-] & Hreg). contradiction. }
      split; [split; [discriminate|]|].
      { intros (_ & _ & _ & H). discriminate. }
      split; [discriminate|]. intros status info [= <- <-].
      split; [reflexivity|]. split; [reflexivity|].
      eexists. split; [reflexivity|]. simpl. now repeat split.
    + split; [split; [discriminate | intros [H|[H|H]]; discriminate]|].
      split; [split; [discriminate|]|].
      { intros (_ & _ & e & [= <-] & Hreg). contradiction. }
      split; [split; [intros _|reflexivity]|].
      { split; [discriminate|]. split; [discriminate|].
        split; [|reflexivity]. exists email. now split. }
      split; [reflexivity | discriminate].
Qed.

Lemma register_refusals_witness :
  snd (register "$2a$10$x" dana_form dana_accounts)
  = Refused 409 "Email already registered"
  /\ fst (register "$2a$10$x" dana_form dana_accounts) = dana_accounts
  /\ snd (register "$2a$10$x" old_form dana_accounts)
     = Refused 500 "Internal server error".
Proof.
  destruct (register_refusals "$2a$10$x" dana_form dana_accounts)
    as (_ & (_ & H409) & _ & Hsame & _).
  destruct (register_refusals "$2a$10$x" old_form dana_accounts)
    as (_ & _ & (_ & H500) & _).
  assert (H : snd (register "$2a$10$x" dana_form dana_accounts)
              = Refused 409 "Email already registered").
  { apply H409. split; [discriminate|]. split; [discriminate|].
    exists "dana@example.com". split; [reflexivity|].
    exists (mkUser 1 "Dana" "dana@example.com" "$2a$10$s3cret" "" 31 "").
    split; [now left | reflexivity]. }
  split; [exact H|]. split; [exact (Hsame _ _ H)|].
  apply H500. split; [discriminate|]. split; [discriminate|].
  split; [|reflexivity].
  exists "olga@example.com". split; [reflexivity|].
  intros (u & [<-|[]] & He). discriminate.
Defined.

Lemma UsersInv_register (hashed : string) (body : Registration)
  (a : Accounts) :
  UsersInv a -> UsersInv (fst (register hashed body a)).
Proof.
  intros HI. unfold register, user_create, Prisma.checked_int.
  destruct (truthy (reg_name body)) as [name|]; [|exact HI].
  destruct (truthy (reg_email body)) as [email|]; [|exact HI].
  destruct (truthy (reg_password body)) as [password|]; [|exact HI].
  destruct (Prisma.findFirst _ (users (store a))) as [u|] eqn:E; [exact HI|].
  destruct (Prisma.fits_int (age_number (reg_age body))); [|exact HI].
  apply find_email_None in E. destruct HI as [Hids Hseq Hemails].
  constructor; simpl.
  - apply NoDup_map_snoc; [assumption|]. simpl. now apply fresh_id.
  - intros u Hu. apply in_app_or in Hu. destruct Hu as [Hu|[<-|[]]].
    + specialize (Hseq u Hu). lia.
    + simpl. lia.
  - now apply NoDup_map_snoc.
Qed.

Lemma UsersInv_none : UsersInv no_accounts.
Proof. constructor; simpl; try constructor; intros; contradiction. Qed.

(** X5. However many registrations are handled, and whatever they carry, no
    two stored accounts share an email or an identifier, and every
    identifier lies below the next one to be handed out. *)
Theorem registrations_keep_accounts_distinct
  (forms : list (string * Registration)) (a : Accounts) :
  UsersInv a ->
  UsersInv (fold_left (fun acc form => fst (register (fst form) (snd form) acc))
                      forms a).
Proof.
  revert a. induction forms as [|[hashed body] rest IH]; simpl; intros a HI.
  - exact HI.
  - apply IH. now apply UsersInv_register.
Qed.

Lemma registrations_keep_accounts_distinct_witness :
  UsersInv (fold_left
              (fun acc form => fst (register (fst form) (snd form) acc))
              [("$2a$10$s3cret", dana_form); ("$2a$10$again", dana_form)]
              no_accounts).
Proof.
  exact (registrations_keep_accounts_distinct
           [("$2a$10$s3cret", dana_form); ("$2a$10$again", dana_form)]
           no_accounts UsersInv_none).
Defined.

(** X6. Login does not tell an unknown email from a wrong password: both
    are answered 400 "Invalid credentials". *)
Theorem login_refusal_is_uniform (bcrypt_compare : string -> string -> bool)
  (jwt_sign : Z -> string) (email password : string) (a : Accounts) :
  UsersInv a ->
  (~ email_registered (store a) email ->
   login bcrypt_compare jwt_sign (Some email) (Some password) (store a)
   = Refused 400 "Invalid credentials")
  /\ (forall u, In u (users (store a)) -> u_email u = email ->
      bcrypt_compare password (u_password u) = false ->
      login bcrypt_compare jwt_sign (Some email) (Some password) (store a)
      = Refused 400 "Invalid credentials").
Proof.
  intros HI. split.
  - intros Hno. unfold login.
    rewrite email_registered_map in Hno. apply find_email_None in Hno.
    now rewrite Hno.
  - intros u Hu <- Hcmp. unfold login.
    rewrite (find_email_In _ u (uinv_emails a HI) Hu), Hcmp. reflexivity.
Qed.

Lemma login_refusal_is_uniform_witness :
  login demo_compare demo_sign (Some "erin@example.com") (Some "s3cret")
        (store dana_accounts)
  = Refused 400 "Invalid credentials"
  /\ login demo_compare demo_sign (Some "dana@example.com") (Some "guess")
           (store dana_accounts)
     = Refused 400 "Invalid credentials".
Proof.
  assert (HI : UsersInv dana_accounts)
    by (apply UsersInv_register, UsersInv_none).
  destruct (login_refusal_is_uniform demo_compare demo_sign
              "erin@example.com" "s3cret" dana_accounts HI) as (H1 & _).
  destruct (login_refusal_is_uniform demo_compare demo_sign
              "dana@example.com" "guess" dana_accounts HI) as (_ & H2).
  split.
  - apply H1. intros (u & [<-|[]] & He). discriminate.
  - apply (H2 (mkUser 1 "Dana" "dana@example.com" "$2a$10$s3cret" "" 31 ""));
      [now left | reflexivity | reflexivity].
Defined.

Lemma register_created (hashed : string) (body : Registration)
  (a a' : Accounts) (status : Z) (info : PartyInfo) :
  register hashed body a = (a', Replied status info) ->
  exists name email password,
    truthy (reg_name body) = Some name
    /\ truthy (reg_email body) = Some email
    /\ truthy (reg_password body) = Some password
    /\ Prisma.findFirst (fun u => String.eqb (u_email u) email)
                        (users (store a)) = None
    /\ status = 201
    /\ info = mkPartyInfo (seq_user a) name email
    /\ a' = mkAccounts
              (with_users
                 (users (store a)
                  ++ [mkUser (seq_user a) name email hashed
                             (or_empty (reg_mobile body))
                             (age_number (reg_age body))
                             (or_empty (reg_profession body))])
                 (store a))
              (seq_user a + 1).
Proof.
  unfold register, user_create, Prisma.checked_int.
  destruct (truthy (reg_name body)) as [name|]; [|discriminate].
  destruct (truthy (reg_email body)) as [email|]; [|discriminate].
  destruct (truthy (reg_password body)) as [password|]; [|discriminate].
  destruct (Prisma.findFirst _ (users (store a))) as [u|] eqn:E;
    [discriminate|].
  destruct (Prisma.fits_int (age_number (reg_age body))); [|discriminate].
  intros [= <- <- <-]. exists name, email, password. now repeat split.
Qed.

Lemma truthy_Some (field : option string) (s : string) :
  truthy field = Some s -> field = Some s.
Proof. destruct field as [[|c r]|]; simpl; congruence. Qed.

(** X7. An account that was just registered can be used at once: logging in
    with the same email and password is answered 200 with a token for the
    new identifier and the name and email registered; that token in a
    Bearer header passes the middleware as the new user; and /me then
    returns the registered name, email and profession.  The contracts of
    the two libraries are the hypotheses: [bcrypt.compare] accepts a password
    against its own hash, [jwt.verify] accepts what [jwt.sign] made, and a
    token is a non-empty string without spaces. *)
Theorem register_then_login (bcrypt_compare : string -> string -> bool)
  (jwt_sign : Z -> string) (jwt_verify : string -> option Z)
  (hashed password : string) (body : Registration) (a a' : Accounts)
  (status : Z) (info : PartyInfo) (qtoken : option QueryValue) :
  UsersInv a ->
  register hashed body a = (a', Replied status info) ->
  reg_password body = Some password ->
  bcrypt_compare password hashed = true ->
  jwt_verify (jwt_sign (pi_id info)) = Some (pi_id info) ->
  has_space (jwt_sign (pi_id info)) = false ->
  jwt_sign (pi_id info) <> EmptyString ->
  login bcrypt_compare jwt_sign (reg_email body) (reg_password body) (store a')
  = Replied 200 (mkLoginBody (jwt_sign (pi_id info)) info)
  /\ auth jwt_verify
          (Some (String.append "Bearer" (String " " (jwt_sign (pi_id info)))))
          qtoken
     = Pass (pi_id info)
  /\ me (pi_id info) (store a')
     = Sent (mkOwnerInfo (pi_id info) (pi_name info) (pi_email info)
                         (or_empty (reg_profession body))).
Proof.
  intros HI Hreg Hpw Hcmp Hver Hsp Hne.
  destruct (register_created _ _ _ _ _ _ Hreg)
    as (name & email & pw & Hn & He & Hp & Hfree & -> & -> & ->).
  apply truthy_Some in He. cbn [pi_id pi_name pi_email] in *.
  split; [|split].
  - unfold login. rewrite He, Hpw. simpl. unfold Prisma.findFirst in *.
    erewrite find_snoc; [|exact Hfree | simpl; apply String.eqb_refl].
    simpl. rewrite Hcmp. reflexivity.
  - unfold auth, request_token.
    rewrite (header_token_two_words "Bearer" _ eq_refl Hsp Hne), Hver.
    reflexivity.
  - unfold me, owner_info, Prisma.findUnique. simpl.
    assert (Hnew : find (fun u => u_id u =? seq_user a) (users (store a))
                   = None).
    { apply (findUnique_None u_id). intros u Hu.
      pose proof (uinv_seq a HI u Hu). lia. }
    erewrite find_snoc; [|exact Hnew | simpl; apply Z.eqb_refl].
    reflexivity.
Qed.

Lemma register_then_login_witness :
  login demo_compare demo_sign (Some "dana@example.com") (Some "s3cret")
        (store dana_accounts)
  = Replied 200 (mkLoginBody "header.one.sig"
                   (mkPartyInfo 1 "Dana" "dana@example.com"))
  /\ me 1 (store dana_accounts)
     = Sent (mkOwnerInfo 1 "Dana" "dana@example.com" "").
Proof.
  destruct (register_then_login demo_compare demo_sign demo_verify
              "$2a$10$s3cret" "s3cret" dana_form no_accounts dana_accounts
              201 (mkPartyInfo 1 "Dana" "dana@example.com") None
              UsersInv_none eq_refl eq_refl eq_refl eq_refl eq_refl
              ltac:(discriminate)) as (Hlogin & _ & Hme).
  split; [exact Hlogin | exact Hme].
Defined.

(** * Listing skills and wants *)

Lemma find_app_Some {A : Type} (f : A -> bool) (l more : list A) (a : A) :
  find f l = Some a -> find f (l ++ more) = Some a.
Proof.
  induction l as [|b rest IH]; simpl; [discriminate|].
  destruct (f b); [trivial | exact IH].
Qed.

Lemma find_snoc_false {A : Type} (f : A -> bool) (l : list A) (a : A) :
  f a = false -> find f (l ++ [a]) = find f l.
Proof.
  intros Ha. induction l as [|b rest IH]; simpl.
  - now rewrite Ha.
  - destruct (f b); [reflexivity | exact IH].
Qed.


(** X9. The list of one's wants holds exactly the wants one owns, newest
    first, and a want another user creates does not change it. *)
Theorem myWants_scope (u : Z) (st : Db) :
  exists rows : list Want,
    myWants u st = Sent rows
    /\ (forall w, In w rows <-> In w (wants st) /\ w_ownerId w = u)
    /\ Permutation rows (filter (fun w => w_ownerId w =? u) (wants st))
    /\ StronglySorted (Prisma.newest_first w_createdAt) rows
    /\ forall (now other : Z) (title description : option string),
         other <> u ->
         myWants u (fst (createWant now other title description st))
         = myWants u st.
Proof.
  eexists. split; [reflexivity|]. unfold Prisma.findMany.
  split; [|split; [|split]].
  - intros w. now rewrite orderBy_desc_In, filter_In, Z.eqb_eq.
  - symmetry. apply orderBy_desc_perm.
  - apply newest_first_strongly.
  - intros now other title description Hne.
    unfold myWants, createWant, want_create, Prisma.findMany.
    destruct title as [t|]; simpl; [|reflexivity].
    rewrite filter_app. simpl.
    assert (E : (other =? u) = false) by now apply Z.eqb_neq.
    rewrite E, app_nil_r. reflexivity.
Qed.

Lemma contains_empty (hay : string) : Prisma.contains EmptyString hay = true.
Proof. destruct hay; reflexivity. Qed.

(** X10. A want with an empty title matches everything: a user who owns one
    gets every skill of the other users as a match. *)
Theorem empty_want_matches_all (u : Z) (st : Db) :
  (exists w, In w (wants st) /\ w_ownerId w = u /\ w_title w = EmptyString) ->
  exists found : list Skill,
    matches u st = Sent (map (skill_view st) found)
    /\ forall s, In s found <-> In s (skills st) /\ s_ownerId s <> u.
Proof.
  intros (w & Hw & Hown & Ht). unfold matches, Prisma.findMany.
  assert (Hmine : In w (filter (fun w => w_ownerId w =? u) (wants st))).
  { apply filter_In. split; [assumption | now apply Z.eqb_eq]. }
  assert (Hlen : Nat.eqb (List.length
                            (filter (fun w => w_ownerId w =? u) (wants st)))
                         0 = false).
  { apply Nat.eqb_neq. intros H0. apply length_zero_iff_nil in H0.
    rewrite H0 in Hmine. contradiction. }
  rewrite Hlen. eexists. split; [reflexivity|].
  intros s. rewrite orderBy_desc_In, filter_In.
  rewrite andb_true_iff, negb_true_iff, Z.eqb_neq. split.
  - intros (Hs & Hne & _). now split.
  - intros (Hs & Hne). split; [assumption|]. split; [assumption|].
    apply existsb_exists.
    exists (fun s : Skill =>
              Prisma.contains_insensitive (w_title w) (s_title s)).
    split.
    + apply in_map_iff. now exists w.
    + rewrite Ht. apply contains_insensitive_iff; [reflexivity|].
      exists EmptyString, EmptyString, (s_title s).
      split; [reflexivity | exact I].
Qed.

Lemma empty_want_matches_all_witness :
  exists found : list Skill,
    matches 3 (fst (createWant 125 3 (Some "") None catalog_db))
    = Sent (map (skill_view (fst (createWant 125 3 (Some "") None catalog_db)))
                found)
    /\ In (mkSkill 2 "Guitar Lessons for Beginners" None "120-9.mp4" 1 120)
          found.
Proof.
  destruct (empty_want_matches_all 3
              (fst (createWant 125 3 (Some "") None catalog_db)))
    as (found & Hm & Hin).
  - exists (mkWant 2 "" None 3 125). split; [|split; reflexivity].
    right. now left.
  - exists found. split; [exact Hm|]. apply Hin.
    split; [right; now left | simpl; lia].
Defined.

(** * What changes access to a video, and what does not *)

Lemma stream_same_tables (v s : Z) (st st' : Db) :
  skills st' = skills st -> permissions st' = permissions st ->
  files st' = files st -> stream v s st' = stream v s st.
Proof. unfold stream. now intros -> -> ->. Qed.

Lemma grows_refl (st : Db) : grows st st.
Proof.
  repeat split; try (exists []; now rewrite app_nil_r). trivial.
Qed.

Lemma grows_trans (st1 st2 st3 : Db) :
  grows st1 st2 -> grows st2 st3 -> grows st1 st3.
Proof.
  intros ((s1 & Hs1) & (p1 & Hp1) & Hf1) ((s2 & Hs2) & (p2 & Hp2) & Hf2).
  split; [|split].
  - exists (s1 ++ s2). now rewrite Hs2, Hs1, app_assoc.
  - exists (p1 ++ p2). now rewrite Hp2, Hp1, app_assoc.
  - intros name H. now apply Hf2, Hf1.
Qed.

Lemma grows_same_tables (st st' : Db) :
  skills st' = skills st -> permissions st' = permissions st ->
  files st' = files st -> grows st st'.
Proof.
  intros Hs Hp Hf. unfold grows. rewrite Hs, Hp, Hf.
  repeat split; try (exists []; now rewrite app_nil_r). trivial.
Qed.

Lemma grows_permission_upsert (u v : Z) (st : Db) :
  grows st (permission_upsert u v st).
Proof.
  unfold permission_upsert.
  destruct (Prisma.findFirst (has_key u v) (permissions st));
    [apply grows_refl|].
  split; [|split]; simpl.
  - exists []. now rewrite app_nil_r.
  - now eexists.
  - trivial.
Qed.

Lemma grows_perform (c : Call) (st : Db) : grows st (perform c st).
Proof.
  destruct c as [now user title description file | now user title description
                | now user videoId | user id | user id]; simpl.
  - unfold createSkill, multer_single, skill_create.
    destruct file as [[filename content]|]; [|apply grows_refl].
    assert (Hfiles : forall name,
               read_file name (files st) <> None ->
               read_file name ((filename, content) :: files st) <> None).
    { intros name H. simpl. destruct (String.eqb filename name);
        [discriminate | assumption]. }
    destruct title as [t|]; simpl.
    + split; [|split]; simpl;
        [now eexists | exists []; now rewrite app_nil_r | exact Hfiles].
    + split; [|split]; simpl;
        [exists []; now rewrite app_nil_r
        | exists []; now rewrite app_nil_r | exact Hfiles].
  - unfold createWant, want_create.
    destruct title as [t|]; simpl; [|apply grows_refl].
    now apply grows_same_tables.
  - unfold createRequest.
    destruct (Prisma.findUnique s_id videoId (skills st)) as [video|];
      [|apply grows_refl].
    destruct (s_ownerId video =? user); [apply grows_refl|].
    destruct (Prisma.findFirst _ (requests st)); [apply grows_refl|].
    now apply grows_same_tables.
  - unfold accept.
    destruct (Prisma.findUnique r_id id (requests st)) as [r|];
      [|apply grows_refl].
    destruct (negb (r_toId r =? user)); [apply grows_refl|].
    destruct (Prisma.update r_id id (with_status accepted) (requests st))
      as [[rows updated]|]; [|apply grows_refl].
    simpl. eapply grows_trans; [|apply grows_permission_upsert].
    now apply grows_same_tables.
  - unfold decline.
    destruct (Prisma.findUnique r_id id (requests st)) as [r|];
      [|apply grows_refl].
    destruct (negb (r_toId r =? user)); [apply grows_refl|].
    destruct (Prisma.update r_id id (with_status declined) (requests st))
      as [[rows updated]|]; [|apply grows_refl].
    now apply grows_same_tables.
Qed.

Lemma grows_run (calls : list Call) (st : Db) : grows st (run calls st).
Proof.
  unfold run. revert st.
  induction calls as [|c rest IH]; simpl; intros st; [apply grows_refl|].
  eapply grows_trans; [apply grows_perform | apply IH].
Qed.

Lemma stream_grows (v s : Z) (st st' : Db) (bytes : string) :
  grows st st' -> stream v s st = Sent bytes ->
  exists bytes', stream v s st' = Sent bytes'.
Proof.
  intros ((ms & Hs) & (mp & Hp) & Hf). unfold stream, Prisma.findUnique,
    Prisma.findFirst. rewrite Hs, Hp.
  destruct (find (fun a => s_id a =? s) (skills st)) as [video|] eqn:Ev;
    [|discriminate].
  rewrite (find_app_Some _ _ ms _ Ev).
  destruct (s_ownerId video =? v) eqn:Eo; simpl.
  - destruct (read_file (s_videoPath video) (files st)) as [b|] eqn:Er;
      [|discriminate].
    intros _. specialize (Hf (s_videoPath video)). rewrite Er in Hf.
    destruct (read_file (s_videoPath video) (files st')) as [b'|].
    + now exists b'.
    + exfalso. now apply Hf.
  - destruct (find (has_key v s) (permissions st)) as [p|] eqn:Ep;
      [|discriminate].
    rewrite (find_app_Some _ _ mp _ Ep).
    destruct (read_file (s_videoPath video) (files st)) as [b|] eqn:Er;
      [|discriminate].
    intros _. specialize (Hf (s_videoPath video)). rewrite Er in Hf.
    destruct (read_file (s_videoPath video) (files st')) as [b'|].
    + now exists b'.
    + exfalso. now apply Hf.
Qed.

(** X11. Access is never taken back: a viewer who can stream a skill can
    still stream it after any sequence of calls, also after the request that
    gave the permission is declined. *)
Theorem access_never_revoked (calls : list Call) (v s : Z) (st : Db)
  (bytes : string) :
  stream v s st = Sent bytes ->
  exists bytes', stream v s (run calls st) = Sent bytes'.
Proof.
  intros H. exact (stream_grows v s st _ bytes (grows_run calls st) H).
Qed.

Lemma access_never_revoked_witness :
  stream 1 1 granted_db = Sent "bytes of 110-7.mp4"
  /\ exists bytes',
       stream 1 1 (run [Decline 2 1; CreateRequest 150 1 1; Decline 2 2]
                       granted_db)
       = Sent bytes'.
Proof.
  split; [reflexivity|].
  exact (access_never_revoked
           [Decline 2 1; CreateRequest 150 1 1; Decline 2 2] 1 1 granted_db
           "bytes of 110-7.mp4" eq_refl).
Defined.

(** X12. An Accept opens one door only: for every other viewer, and for
    every other skill, the stream gate answers after it what it answered
    before. *)
Theorem accept_grants_only_requester (u id : Z) (st st' : Db)
  (r' : Request) :
  accept u id st = (st', Sent r') ->
  forall v s : Z,
    v <> r_fromId r' \/ s <> r_skillId r' ->
    stream v s st' = stream v s st.
Proof.
  unfold accept. intros H v s Hother.
  destruct (Prisma.findUnique r_id id (requests st)) as [r|] eqn:Hf;
    [|discriminate].
  destruct (negb (r_toId r =? u)); [discriminate|].
  destruct (update_found r_id id _ _ Hf) as (before & after & _ & _ & Hupd).
  rewrite Hupd in H. injection H as <- <-. simpl in Hother.
  unfold permission_upsert. simpl.
  destruct (Prisma.findFirst (has_key (r_fromId r) (r_skillId r))
              (permissions st)) as [p|]; [reflexivity|].
  unfold stream. simpl. unfold Prisma.findFirst.
  rewrite find_snoc_false; [reflexivity|].
  unfold has_key. simpl. apply andb_false_iff.
  destruct Hother as [Hv|Hs]; [left | right]; apply Z.eqb_neq; congruence.
Qed.

Lemma accept_grants_only_requester_witness :
  stream 3 1 (fst (accept 2 1 requested_db)) = Fail 403 "No permission"
  /\ stream 1 2 (fst (accept 2 1 requested_db)) = stream 1 2 requested_db.
Proof.
  pose proof (accept_grants_only_requester 2 1 requested_db
                (fst (accept 2 1 requested_db))
                (mkRequest 1 1 2 1 accepted 130) eq_refl) as H.
  split.
  - rewrite (H 3 1); [reflexivity | left; simpl; lia].
  - apply H. right. simpl. lia.
Defined.

(** X13. Only an upload and an Accept can change what the stream gate
    answers: creating a want, creating a request and declining leave every
    answer of the gate as it was. *)
Theorem other_calls_leave_access (c : Call) (v s : Z) (st : Db) :
  may_change_access c = false ->
  stream v s (perform c st) = stream v s st.
Proof.
  destruct c as [now user title description file | now user title description
                | now user videoId | user id | user id]; simpl;
    try discriminate; intros _; apply stream_same_tables.
  - unfold createWant, want_create. destruct title; reflexivity.
  - unfold createWant, want_create. destruct title; reflexivity.
  - unfold createWant, want_create. destruct title; reflexivity.
  - unfold createRequest.
    destruct (Prisma.findUnique s_id videoId (skills st)); [|reflexivity].
    destruct (s_ownerId _ =? user); [reflexivity|].
    destruct (Prisma.findFirst _ (requests st)); reflexivity.
  - unfold createRequest.
    destruct (Prisma.findUnique s_id videoId (skills st)); [|reflexivity].
    destruct (s_ownerId _ =? user); [reflexivity|].
    destruct (Prisma.findFirst _ (requests st)); reflexivity.
  - unfold createRequest.
    destruct (Prisma.findUnique s_id videoId (skills st)); [|reflexivity].
    destruct (s_ownerId _ =? user); [reflexivity|].
    destruct (Prisma.findFirst _ (requests st)); reflexivity.
  - unfold decline.
    destruct (Prisma.findUnique r_id id (requests st)); [|reflexivity].
    destruct (negb _); [reflexivity|].
    destruct (Prisma.update _ _ _ _) as [[rows updated]|]; reflexivity.
  - unfold decline.
    destruct (Prisma.findUnique r_id id (requests st)); [|reflexivity].
    destruct (negb _); [reflexivity|].
    destruct (Prisma.update _ _ _ _) as [[rows updated]|]; reflexivity.
  - unfold decline.
    destruct (Prisma.findUnique r_id id (requests st)); [|reflexivity].
    destruct (negb _); [reflexivity|].
    destruct (Prisma.update _ _ _ _) as [[rows updated]|]; reflexivity.
Qed.

Lemma other_calls_leave_access_witness :
  stream 1 1 (perform (CreateRequest 130 1 1) catalog_db)
  = Fail 403 "No permission".
Proof.
  rewrite (other_calls_leave_access (CreateRequest 130 1 1) 1 1 catalog_db
             eq_refl).
  reflexivity.
Defined.

(** X14. An upload that succeeds can be seen and played at once: the new
    skill, owned by the uploader and named by the stored file, is in the
    list of skills, and its owner streams exactly the bytes uploaded. *)
Theorem upload_then_stream (now u : Z) (title description : option string)
  (filename bytes : string) (st st' : Db) (skill : Skill) :
  Inv st ->
  createSkill now u title description (Some (filename, bytes)) st
  = (st', Sent skill) ->
  s_ownerId skill = u /\ s_videoPath skill = filename
  /\ title = Some (s_title skill)
  /\ stream u (s_id skill) st' = Sent bytes
  /\ exists listed, listSkills st' = Sent listed
                    /\ In (skill_view st' skill) listed.
Proof.
  intros HI. unfold createSkill, multer_single, skill_create.
  destruct title as [t|]; [|discriminate]. intros [= <- <-]. simpl.
  split; [reflexivity|]. split; [reflexivity|]. split; [reflexivity|].
  split.
  - unfold stream, Prisma.findUnique. simpl.
    assert (Hnew : find (fun a => s_id a =? seq_skill st) (skills st) = None).
    { apply (findUnique_None s_id). intros s Hs.
      pose proof (inv_skill_seq st HI s Hs). lia. }
    erewrite find_snoc; [|exact Hnew | simpl; apply Z.eqb_refl].
    simpl. rewrite Z.eqb_refl. simpl. rewrite String.eqb_refl. reflexivity.
  - eexists. split; [reflexivity|]. apply in_map.
    apply orderBy_desc_In. simpl. apply in_or_app. right. now left.
Qed.

Lemma upload_then_stream_witness :
  Inv catalog_db
  /\ stream 3 3 (fst (createSkill 140 3 (Some "Knots") None
                        (Some ("140-3.mp4", "knot bytes")) catalog_db))
     = Sent "knot bytes".
Proof.
  split; [exact Inv_catalog|].
  destruct (upload_then_stream 140 3 (Some "Knots") None "140-3.mp4"
              "knot bytes" catalog_db
              (fst (createSkill 140 3 (Some "Knots") None
                      (Some ("140-3.mp4", "knot bytes")) catalog_db))
              (mkSkill 3 "Knots" None "140-3.mp4" 3 140)
              Inv_catalog eq_refl) as (_ & _ & _ & Hs & _).
  exact Hs.
Defined.

(** * Where permissions come from *)

Lemma Granted_resolve (s : Status) (r : Request)
  (before after : list Request) (st : Db) :
  s <> pending -> requests st = before ++ r :: after -> Granted st ->
  Granted (with_requests (before ++ with_status s r :: after)
                         (seq_request st) st).
Proof.
  intros Hs Hrows HG p Hp. simpl in Hp.
  destruct (HG p Hp) as (r0 & Hr0 & Hf & Hk & Hst).
  rewrite Hrows in Hr0. apply in_app_or in Hr0. simpl.
  destruct Hr0 as [Hr0|[<-|Hr0]].
  - exists r0. split; [apply in_or_app; now left | now repeat split].
  - exists (with_status s r).
    split; [apply in_or_app; right; now left | now repeat split].
  - exists r0. split; [apply in_or_app; right; now right | now repeat split].
Qed.

Lemma Granted_upsert (r : Request) (st : Db) :
  In r (requests st) -> r_status r <> pending -> Granted st ->
  Granted (permission_upsert (r_fromId r) (r_skillId r) st).
Proof.
  intros Hr Hst HG. unfold permission_upsert.
  destruct (Prisma.findFirst _ (permissions st)); [exact HG|].
  intros p Hp. simpl in Hp. apply in_app_or in Hp. simpl.
  destruct Hp as [Hp|[<-|[]]]; [now apply HG|].
  exists r. now repeat split.
Qed.

Lemma Granted_perform (c : Call) (st : Db) :
  Granted st -> Granted (perform c st).
Proof.
  intros HG.
  destruct c as [now user title description file | now user title description
                | now user videoId | user id | user id]; simpl.
  - unfold createSkill, multer_single, skill_create.
    destruct file as [[filename content]|]; [|exact HG].
    destruct title; exact HG.
  - unfold createWant, want_create. destruct title; exact HG.
  - unfold createRequest.
    destruct (Prisma.findUnique s_id videoId (skills st)) as [video|];
      [|exact HG].
    destruct (s_ownerId video =? user); [exact HG|].
    destruct (Prisma.findFirst _ (requests st)); [exact HG|].
    intros p Hp. simpl in Hp. destruct (HG p Hp) as (r & Hr & Hrest).
    exists r. split; [simpl; apply in_or_app; now left | exact Hrest].
  - unfold accept.
    destruct (Prisma.findUnique r_id id (requests st)) as [r|] eqn:Hf;
      [|exact HG].
    destruct (negb (r_toId r =? user)); [exact HG|].
    destruct (update_found r_id id _ _ Hf) as (before & after & Hrows & _ & Hupd).
    rewrite Hupd. simpl.
    apply (Granted_upsert (with_status accepted r)).
    + simpl. apply in_or_app. right. now left.
    + discriminate.
    + apply Granted_resolve; [discriminate | assumption | assumption].
  - unfold decline.
    destruct (Prisma.findUnique r_id id (requests st)) as [r|] eqn:Hf;
      [|exact HG].
    destruct (negb (r_toId r =? user)); [exact HG|].
    destruct (update_found r_id id _ _ Hf) as (before & after & Hrows & _ & Hupd).
    rewrite Hupd. simpl.
    apply Granted_resolve; [discriminate | assumption | assumption].
Qed.

Lemma Granted_run (calls : list Call) (st : Db) :
  Granted st -> Granted (run calls st).
Proof.
  unfold run. revert st.
  induction calls as [|c rest IH]; simpl; intros st HG; [exact HG|].
  apply IH. now apply Granted_perform.
Qed.

Lemma Granted_no_permissions (st : Db) : permissions st = [] -> Granted st.
Proof. intros H p Hp. rewrite H in Hp. contradiction. Qed.

Lemma permission_is_sound (st : Db) (u s : Z) :
  Inv st -> Granted st -> has_permission st u s ->
  skill_exists st s /\ ~ owns st u s
  /\ exists r, In r (requests st) /\ r_fromId r = u /\ r_skillId r = s
               /\ r_status r <> pending.
Proof.
  intros HI HG (p & Hp & <- & <-).
  destruct (HG p Hp) as (r & Hr & Hf & Hk & Hst).
  destruct (inv_request_target st HI r Hr) as (Hne & sk & Hsk & Hid & Hown).
  split; [exists sk; split; [assumption | congruence]|]. split.
  - intros (sk' & Hsk' & Hid' & Hown').
    assert (sk' = sk) as ->.
    { pose proof (find_skill st sk HI Hsk) as H1.
      pose proof (find_skill st sk' HI Hsk') as H2.
      rewrite Hid' in H2. rewrite Hid, Hk in H1. congruence. }
    congruence.
  - exists r. now repeat split.
Qed.

(** X15. In every store the calls build from one without permissions, a
    Permission row is there only because its holder asked for that skill
    and the request was resolved; the skill exists, and the holder is not
    its owner. *)
Theorem permissions_come_from_requests (calls : list Call) (st0 : Db)
  (u s : Z) :
  Inv st0 -> permissions st0 = [] ->
  has_permission (run calls st0) u s ->
  skill_exists (run calls st0) s /\ ~ owns (run calls st0) u s
  /\ exists r, In r (requests (run calls st0))
               /\ r_fromId r = u /\ r_skillId r = s
               /\ r_status r <> pending.
Proof.
  intros HI Hnone. apply permission_is_sound.
  - now apply Inv_run.
  - now apply Granted_run, Granted_no_permissions.
Qed.

Lemma permissions_come_from_requests_witness :
  Inv seed_db
  /\ has_permission
       (run [CreateSkill 110 2 (Some "Cooking Basics") None
                         (Some ("110-7.mp4", "bytes"));
             CreateRequest 130 1 1; Accept 2 1; Decline 2 1] seed_db) 1 1
  /\ ~ owns (run [CreateSkill 110 2 (Some "Cooking Basics") None
                              (Some ("110-7.mp4", "bytes"));
                  CreateRequest 130 1 1; Accept 2 1; Decline 2 1] seed_db)
            1 1.
Proof.
  assert (Hperm : has_permission
            (run [CreateSkill 110 2 (Some "Cooking Basics") None
                              (Some ("110-7.mp4", "bytes"));
                  CreateRequest 130 1 1; Accept 2 1; Decline 2 1] seed_db)
            1 1).
  { exists (mkPermission 1 1 1). split; [now left|]. split; reflexivity. }
  split; [exact Inv_seed|]. split; [exact Hperm|].
  exact (proj1 (proj2 (permissions_come_from_requests _ seed_db 1 1
                         Inv_seed eq_refl Hperm))).
Defined.

(** * The life of a request *)

Lemma findUnique_update {A : Type} (key : A -> Z) (k k' : Z) (data : A -> A)
  (rows rows' : list A) (a' : A) :
  (forall a, key (data a) = key a) ->
  Prisma.update key k data rows = Some (rows', a') ->
  Prisma.findUnique key k' rows'
  = option_map (fun a => if key a =? k then data a else a)
               (Prisma.findUnique key k' rows).
Proof.
  intros Hkey. unfold Prisma.findUnique. revert rows' a'.
  induction rows as [|a rest IH]; simpl; intros rows' a' H; [discriminate|].
  destruct (key a =? k) eqn:Ek.
  - injection H as <- <-. simpl. rewrite Hkey.
    destruct (key a =? k') eqn:Ek'; simpl; [now rewrite Ek|].
    destruct (find (fun x => key x =? k') rest) as [b|] eqn:Eb;
      [|reflexivity].
    simpl. apply find_some in Eb. destruct Eb as [_ Eb].
    apply Z.eqb_eq in Ek, Eb. apply Z.eqb_neq in Ek'.
    assert (Hb : (key b =? k) = false) by (apply Z.eqb_neq; congruence).
    now rewrite Hb.
  - destruct (Prisma.update key k data rest) as [[rest' x]|]; [|discriminate].
    injection H as <- <-. simpl.
    destruct (key a =? k') eqn:Ek'; simpl; [now rewrite Ek|].
    now apply (IH rest' x).
Qed.

(** What connects the row of a request identifier before and after calls:
    the same sender, target, skill and creation time, and a resolved status
    stays resolved. *)
Lemma same_request_refl (r : Request) :
  r_fromId r = r_fromId r /\ r_toId r = r_toId r
  /\ r_skillId r = r_skillId r /\ r_createdAt r = r_createdAt r
  /\ (r_status r <> pending -> r_status r <> pending).
Proof. now repeat split. Qed.

Lemma request_kept_by_perform (c : Call) (id : Z) (st : Db) (r : Request) :
  Prisma.findUnique r_id id (requests st) = Some r ->
  exists r',
    Prisma.findUnique r_id id (requests (perform c st)) = Some r'
    /\ r_fromId r' = r_fromId r /\ r_toId r' = r_toId r
    /\ r_skillId r' = r_skillId r /\ r_createdAt r' = r_createdAt r
    /\ (r_status r <> pending -> r_status r' <> pending).
Proof.
  intros Hr.
  assert (Hsame : exists r',
             Prisma.findUnique r_id id (requests st) = Some r'
             /\ r_fromId r' = r_fromId r /\ r_toId r' = r_toId r
             /\ r_skillId r' = r_skillId r /\ r_createdAt r' = r_createdAt r
             /\ (r_status r <> pending -> r_status r' <> pending)).
  { exists r. split; [assumption | apply same_request_refl]. }
  assert (Hres : forall (s : Status) rows x,
             s <> pending ->
             forall k,
             Prisma.update r_id k (with_status s) (requests st)
             = Some (rows, x) ->
             exists r',
               Prisma.findUnique r_id id rows = Some r'
               /\ r_fromId r' = r_fromId r /\ r_toId r' = r_toId r
               /\ r_skillId r' = r_skillId r
               /\ r_createdAt r' = r_createdAt r
               /\ (r_status r <> pending -> r_status r' <> pending)).
  { intros s rows x Hs k Hupd.
    rewrite (findUnique_update r_id k id (with_status s) _ _ _
               (fun a => eq_refl) Hupd), Hr. simpl.
    eexists. split; [reflexivity|].
    destruct (r_id r =? k); simpl; now repeat split. }
  destruct c as [now user title description file | now user title description
                | now user videoId | user k | user k]; simpl.
  - unfold createSkill, multer_single, skill_create.
    destruct file as [[filename content]|]; [|exact Hsame].
    destruct title; exact Hsame.
  - unfold createWant, want_create. destruct title; exact Hsame.
  - unfold createRequest.
    destruct (Prisma.findUnique s_id videoId (skills st)) as [video|];
      [|exact Hsame].
    destruct (s_ownerId video =? user); [exact Hsame|].
    destruct (Prisma.findFirst _ (requests st)); [exact Hsame|].
    simpl. exists r. split; [|apply same_request_refl].
    unfold Prisma.findUnique in *. now apply find_app_Some.
  - unfold accept.
    destruct (Prisma.findUnique r_id k (requests st)) as [r0|];
      [|exact Hsame].
    destruct (negb (r_toId r0 =? user)); [exact Hsame|].
    destruct (Prisma.update r_id k (with_status accepted) (requests st))
      as [[rows x]|] eqn:Hupd; [|exact Hsame].
    simpl.
    destruct (permission_upsert_frame (r_fromId r0) (r_skillId r0)
                (with_requests rows (seq_request st) st))
      as (_ & _ & _ & -> & _).
    simpl. apply (Hres accepted rows x ltac:(discriminate) k Hupd).
  - unfold decline.
    destruct (Prisma.findUnique r_id k (requests st)) as [r0|];
      [|exact Hsame].
    destruct (negb (r_toId r0 =? user)); [exact Hsame|].
    destruct (Prisma.update r_id k (with_status declined) (requests st))
      as [[rows x]|] eqn:Hupd; [|exact Hsame].
    simpl. apply (Hres declined rows x ltac:(discriminate) k Hupd).
Qed.

(** X16. A request is for life: after any sequence of calls its identifier
    still finds a row with the same sender, target, skill and creation
    time, and once it is accepted or declined it never is pending again. *)
Theorem request_is_permanent (calls : list Call) (id : Z) (st : Db)
  (r : Request) :
  Prisma.findUnique r_id id (requests st) = Some r ->
  exists r',
    Prisma.findUnique r_id id (requests (run calls st)) = Some r'
    /\ r_fromId r' = r_fromId r /\ r_toId r' = r_toId r
    /\ r_skillId r' = r_skillId r /\ r_createdAt r' = r_createdAt r
    /\ (r_status r <> pending -> r_status r' <> pending).
Proof.
  unfold run. revert st r.
  induction calls as [|c rest IH]; simpl; intros st r Hr.
  - exists r. split; [assumption | apply same_request_refl].
  - destruct (request_kept_by_perform c id st r Hr)
      as (r1 & Hr1 & Hf1 & Ht1 & Hs1 & Hc1 & Hp1).
    destruct (IH _ r1 Hr1) as (r2 & Hr2 & Hf2 & Ht2 & Hs2 & Hc2 & Hp2).
    exists r2. split; [assumption|].
    repeat split; try congruence. intros H. now apply Hp2, Hp1.
Qed.

Lemma request_is_permanent_witness :
  exists r',
    Prisma.findUnique r_id 1
      (requests (run [Accept 2 1; CreateRequest 150 1 1; Decline 2 1]
                     requested_db)) = Some r'
    /\ r_fromId r' = 1 /\ r_skillId r' = 1.
Proof.
  destruct (request_is_permanent
              [Accept 2 1; CreateRequest 150 1 1; Decline 2 1] 1 requested_db
              (mkRequest 1 1 2 1 pending 130) eq_refl)
    as (r' & Hr' & Hf & _ & Hs & _).
  exists r'. now repeat split.
Defined.

(** * A new request in the lists of its two parties *)

Lemma createRequest_created (now u sid : Z) (st st' : Db) (r : Request) :
  createRequest now u sid st = (st', Sent r) ->
  requests st' = requests st ++ [r]
  /\ users st' = users st /\ skills st' = skills st
  /\ r_fromId r = u /\ r_skillId r = sid /\ r_toId r <> u
  /\ r_status r = pending.
Proof.
  unfold createRequest.
  destruct (Prisma.findUnique s_id sid (skills st)) as [video|];
    [|discriminate].
  destruct (s_ownerId video =? u) eqn:E; [discriminate|].
  destruct (Prisma.findFirst _ (requests st)); [discriminate|].
  intros [= <- <-]. simpl. apply Z.eqb_neq in E. now repeat split.
Qed.

(** X17. A request that was just created shows in the outgoing list of its
    sender and in the incoming list of the skill's owner, and in no other
    user's outgoing or incoming list. *)
Theorem new_request_is_listed (now u sid : Z) (st st' : Db) (r : Request) :
  createRequest now u sid st = (st', Sent r) ->
  (exists out, listRequests u (Some (QString "outgoing")) st' = Sent out
               /\ In (request_view st' r) out)
  /\ (exists inc, listRequests (r_toId r) None st' = Sent inc
                  /\ In (request_view st' r) inc)
  /\ (forall w out, w <> u ->
        listRequests w (Some (QString "outgoing")) st' = Sent out ->
        ~ In r (map rv_request out))
  /\ (forall w inc, w <> r_toId r ->
        listRequests w None st' = Sent inc ->
        ~ In r (map rv_request inc)).
Proof.
  intros H. destruct (createRequest_created _ _ _ _ _ _ H)
    as (Hrows & _ & _ & Hf & _ & _ & _).
  assert (Hin : In r (requests st')).
  { rewrite Hrows. apply in_or_app. right. now left. }
  unfold listRequests, Prisma.findMany. simpl.
  split; [|split; [|split]].
  - eexists. split; [reflexivity|]. apply in_map.
    apply orderBy_desc_In, filter_In. split; [assumption|].
    now apply Z.eqb_eq.
  - eexists. split; [reflexivity|]. apply in_map.
    apply orderBy_desc_In, filter_In. split; [assumption|].
    now apply Z.eqb_eq.
  - intros w out Hw [= <-]. rewrite map_map. simpl. rewrite map_id.
    rewrite orderBy_desc_In, filter_In, Z.eqb_eq. intros [_ Hx]. congruence.
  - intros w inc Hw [= <-]. rewrite map_map. simpl. rewrite map_id.
    rewrite orderBy_desc_In, filter_In, Z.eqb_eq. intros [_ Hx]. congruence.
Qed.

Lemma new_request_is_listed_witness :
  exists inc,
    listRequests 2 None requested_db = Sent inc
    /\ In (request_view requested_db (mkRequest 1 1 2 1 pending 130)) inc.
Proof.
  destruct (new_request_is_listed 130 1 1 catalog_db requested_db
              (mkRequest 1 1 2 1 pending 130) eq_refl) as (_ & Hinc & _).
  exact Hinc.
Defined.

(** * The list of authorized videos *)

Lemma user_video_distinct (u : Z) (rows : list Permission) :
  NoDup (map (fun p => (p_userId p, p_videoId p)) rows) ->
  NoDup (map p_videoId (filter (fun p => p_userId p =? u) rows)).
Proof.
  induction rows as [|p rest IH]; simpl; intros Hnd; [constructor|].
  apply NoDup_cons_iff in Hnd. destruct Hnd as [Hnew Hrest].
  destruct (p_userId p =? u) eqn:E; simpl; [|now apply IH].
  apply NoDup_cons; [|now apply IH].
  intros Hin. apply Hnew. apply in_map_iff in Hin.
  destruct Hin as (q & Hq & Hqin). apply filter_In in Hqin.
  destruct Hqin as [Hqin Hqu]. apply Z.eqb_eq in E, Hqu.
  apply in_map_iff. exists q. split; [|assumption]. congruence.
Qed.

Lemma permission_video_Some (st : Db) (p : Permission) :
  Inv st -> Granted st -> In p (permissions st) ->
  exists v, permission_video st p = Some v
            /\ In (av_video v) (skills st)
            /\ s_id (av_video v) = p_videoId p.
Proof.
  intros HI HG Hp.
  assert (Hhas : has_permission st (p_userId p) (p_videoId p))
    by now exists p.
  destruct (permission_is_sound st _ _ HI HG Hhas)
    as ((sk & Hsk & Hid) & _ & _).
  unfold permission_video. rewrite <- Hid, (find_skill st sk HI Hsk).
  eexists. split; [reflexivity|]. simpl. now split.
Qed.

Lemma authorized_sound (u : Z) (st : Db) :
  Inv st -> Granted st ->
  exists entries : list (option AuthorizedVideo),
    authorized u st = Sent entries
    /\ (forall e, In e entries ->
          exists v, e = Some v /\ In (av_video v) (skills st)
                    /\ has_permission st u (s_id (av_video v))
                    /\ stream u (s_id (av_video v)) st
                       <> Fail 403 "No permission")
    /\ (forall s, has_permission st u s ->
          exists v, In (Some v) entries /\ s_id (av_video v) = s)
    /\ NoDup entries.
Proof.
  intros HI HG. eexists. split; [reflexivity|]. unfold Prisma.findMany.
  split; [|split].
  - intros e He. apply in_map_iff in He. destruct He as (p & <- & Hp).
    apply orderBy_desc_In, filter_In in Hp. destruct Hp as [Hp Hu].
    apply Z.eqb_eq in Hu.
    destruct (permission_video_Some st p HI HG Hp) as (v & Hv & Hsk & Hid).
    exists v. split; [assumption|]. split; [assumption|].
    assert (Hhas : has_permission st u (s_id (av_video v))).
    { exists p. repeat split; congruence. }
    split; [assumption|].
    rewrite (stream_authorized u (av_video v) st HI Hsk (or_intror Hhas)).
    destruct (read_file _ (files st)); discriminate.
  - intros s (p & Hp & Hu & Hs).
    destruct (permission_video_Some st p HI HG Hp) as (v & Hv & _ & Hid).
    exists v. split; [|congruence].
    rewrite <- Hv. apply in_map. apply orderBy_desc_In, filter_In.
    split; [assumption | now apply Z.eqb_eq].
  - apply (NoDup_map_inv (option_map (fun v => s_id (av_video v)))).
    rewrite map_map.
    rewrite (map_ext_in _ (fun p => Some (p_videoId p))).
    + rewrite <- (map_map p_videoId Some).
      apply Finite.Injective_map_NoDup; [intros x y [= ->]; reflexivity|].
      eapply Permutation_NoDup.
      * apply Permutation_map, orderBy_desc_perm.
      * apply user_video_distinct, HI.
    + intros p Hp. apply orderBy_desc_In, filter_In in Hp.
      destruct Hp as [Hp _].
      destruct (permission_video_Some st p HI HG Hp) as (v & -> & _ & Hid).
      simpl. now rewrite Hid.
Qed.

(** X18. The list of authorized videos holds the stored skills the caller
    has a Permission row for, each once; no entry misses its video, and the
    stream gate does not answer Forbidden for any of them. *)
Theorem authorized_lists_permitted (calls : list Call) (st0 : Db) (u : Z) :
  Inv st0 -> permissions st0 = [] ->
  exists entries : list (option AuthorizedVideo),
    authorized u (run calls st0) = Sent entries
    /\ (forall e, In e entries ->
          exists v, e = Some v /\ In (av_video v) (skills (run calls st0))
                    /\ has_permission (run calls st0) u (s_id (av_video v))
                    /\ stream u (s_id (av_video v)) (run calls st0)
                       <> Fail 403 "No permission")
    /\ (forall s, has_permission (run calls st0) u s ->
          exists v, In (Some v) entries /\ s_id (av_video v) = s)
    /\ NoDup entries.
Proof.
  intros HI Hnone. apply authorized_sound.
  - now apply Inv_run.
  - now apply Granted_run, Granted_no_permissions.
Qed.

Lemma authorized_lists_permitted_witness :
  Inv seed_db
  /\ exists entries,
       authorized 1
         (run [CreateSkill 110 2 (Some "Cooking Basics") None
                           (Some ("110-7.mp4", "bytes"));
               CreateRequest 130 1 1; Accept 2 1] seed_db)
       = Sent entries
       /\ exists v, In (Some v) entries /\ s_id (av_video v) = 1.
Proof.
  split; [exact Inv_seed|].
  destruct (authorized_lists_permitted
              [CreateSkill 110 2 (Some "Cooking Basics") None
                           (Some ("110-7.mp4", "bytes"));
               CreateRequest 130 1 1; Accept 2 1] seed_db 1
              Inv_seed eq_refl) as (entries & Ha & _ & Hall & _).
  exists entries. split; [exact Ha|]. apply Hall.
  exists (mkPermission 1 1 1). split; [now left|]. split; reflexivity.
Defined.

(** X19. Accepting a request puts the skill into the requester's list of
    authorized videos. *)
Theorem accept_then_authorized (r : Request) (st : Db) :
  Inv st -> Granted st -> In r (requests st) ->
  exists entries v,
    authorized (r_fromId r) (fst (accept (r_toId r) (r_id r) st))
    = Sent entries
    /\ In (Some v) entries /\ s_id (av_video v) = r_skillId r.
Proof.
  intros HI HG Hr.
  pose proof (Inv_accept (r_toId r) (r_id r) st HI) as HI'.
  pose proof (Granted_perform (Accept (r_toId r) (r_id r)) st HG) as HG'.
  simpl in HG'.
  destruct (authorized_sound (r_fromId r) _ HI' HG')
    as (entries & Ha & _ & Hall & _).
  destruct (accept_by_target r st HI Hr) as (b & a & _ & _ & Hacc).
  assert (Hhas : has_permission (fst (accept (r_toId r) (r_id r) st))
                                (r_fromId r) (r_skillId r)).
  { rewrite Hacc. simpl. apply upsert_grants. }
  destruct (Hall _ Hhas) as (v & Hv & Hid).
  now exists entries, v.
Qed.

Lemma accept_then_authorized_witness :
  Inv requested_db
  /\ exists entries v,
       authorized 1 (fst (accept 2 1 requested_db)) = Sent entries
       /\ In (Some v) entries /\ s_id (av_video v) = 1.
Proof.
  split; [exact Inv_requested|].
  exact (accept_then_authorized (mkRequest 1 1 2 1 pending 130) requested_db
           Inv_requested (Granted_no_permissions requested_db eq_refl)
           (or_introl eq_refl)).
Defined.

(** * What every store built by the handlers satisfies *)

